(** * The LiveKit voice-interview client (frontend/livekit-voice-client/src/app/page.tsx)

    A shallow embedding of the React component [VoiceInterviewPage]: its
    [useState] cells, the three asynchronous functions
    [getTokenFromBackend], [startVoiceInterview], [enableMicrophone] and
    [stopVoiceInterview], and the six room-event listeners that
    [startVoiceInterview] registers.

    The component talks to three collaborators that are not part of the
    repository: the HTTP backend (through [fetch]), the livekit-client
    [Room] / track objects, and the browser (microphone, DOM).  They are
    modelled as a [World] that records what the component did to them (a
    trace of calls, the captured devices, the open connections, the
    elements in the document) and as explicit answers handed to each
    asynchronous call. *)

From stdpp Require Import base option list gmap strings.
From Stdlib Require Import DecimalString.

Open Scope string_scope.

(** ** Values *)

(** [type] parameter of [updateStatus] and the [statusType] cell. *)
Inductive Severity := info | success | error | warning.

(** A thrown JavaScript value: an [Error] instance carrying a message, or
    anything else (the code tests [error instanceof Error]). *)
Inductive JsExn :=
| ErrorObj (message : string)
| NonError.

(** [error instanceof Error ? error.message : 'Unknown error'] *)
Definition error_message (err : JsExn) : string :=
  match err with
  | ErrorObj message => message
  | NonError => "Unknown error"
  end.

(** Decimal rendering of a number inside a template literal. *)
Definition dec (n : nat) : string := NilEmpty.string_of_uint (Nat.to_uint n).

Record Config := {
  apiUrl : string;
  organization : string;
  referenceNumber : string;
  participantName : string;
  roomName : string
}.

Definition CONFIG : Config := {|
  apiUrl := "http://127.0.0.1:8000";
  organization := "test_org";
  referenceNumber := "NORMALIZED_TEST_001";
  participantName := "candidate_prajwal";
  roomName := "interview_NORMALIZED_TEST_001"
|}.

(** [interface TokenResponse]; its [success] field is [tr_success] here,
    [success] being a severity. *)
Record TokenResponse := {
  tr_success : bool;
  token : string;
  livekit_url : string;
  room_name : string;
  participant_name : string
}.

(** The argument of [JSON.stringify], kept structured: the code only
    serialises flat objects of strings and numbers. *)
Inductive JsonValue :=
| JStr (s : string)
| JNum (n : nat).

Definition Json : Type := list (string * JsonValue).

Inductive Method := GET | POST.

Record Request := {
  url : string;
  method : Method;
  headers : list (string * string);
  body : option Json
}.

Module Response.
Record t := {
  status : nat;
  text : string;                     (* what [await r.text()] yields *)
  json : JsExn + TokenResponse       (* what [await r.json()] settles to *)
}.
(** [Response.ok]: the status is in the range 200-299. *)
Definition ok (r : t) : bool := ((200 <=? status r) && (status r <=? 299))%nat.
End Response.

(** What a [fetch] promise settles to: rejection or a response. *)
Definition FetchAnswer : Type := JsExn + Response.t.

(** Handles of the objects the component creates or receives. *)
Definition RoomId := nat.
Definition TrackId := nat.
Definition ElemId := nat.

Module RoomEvent.
Inductive t :=
| Connected
| ParticipantConnected
| ParticipantDisconnected
| TrackSubscribed
| TrackUnsubscribed
| Disconnected.

Definition eqb (a b : t) : bool :=
  match a, b with
  | Connected, Connected
  | ParticipantConnected, ParticipantConnected
  | ParticipantDisconnected, ParticipantDisconnected
  | TrackSubscribed, TrackSubscribed
  | TrackUnsubscribed, TrackUnsubscribed
  | Disconnected, Disconnected => true
  | _, _ => false
  end.
End RoomEvent.

Module Track.
Inductive Kind := Audio | Video.
End Track.

Record RemoteTrack := { sid : nat; kind : Track.Kind }.
Record Participant := { identity : string }.

(** An event as the room service emits it, with its payload. *)
Inductive RoomSignal :=
| SigConnected
| SigParticipantConnected (participant : Participant)
| SigParticipantDisconnected (participant : Participant)
| SigTrackSubscribed (track : RemoteTrack) (participant : Participant)
| SigTrackUnsubscribed (track : RemoteTrack)
| SigDisconnected.

Definition signal_event (sig : RoomSignal) : RoomEvent.t :=
  match sig with
  | SigConnected => RoomEvent.Connected
  | SigParticipantConnected _ => RoomEvent.ParticipantConnected
  | SigParticipantDisconnected _ => RoomEvent.ParticipantDisconnected
  | SigTrackSubscribed _ _ => RoomEvent.TrackSubscribed
  | SigTrackUnsubscribed _ => RoomEvent.TrackUnsubscribed
  | SigDisconnected => RoomEvent.Disconnected
  end.

(** Options passed to [createLocalAudioTrack]. *)
Record AudioCaptureOptions := {
  echoCancellation : bool;
  noiseSuppression : bool;
  autoGainControl : bool
}.

(** ** The component's state: one field per [useState] cell *)

Record Component := {
  status : string;
  statusType : Severity;
  isConnecting : bool;
  isConnected : bool;
  room : option RoomId;
  localAudioTrack : option TrackId;
  participants : list string
}.

Definition initial_component : Component := {|
  status := "Ready to start voice interview";
  statusType := info;
  isConnecting := false;
  isConnected := false;
  room := None;
  localAudioTrack := None;
  participants := []
|}.

(** ** The collaborators *)

(** Every call the component makes on a collaborator, in the order made. *)
Inductive Effect :=
| Fetch (rq : Request)
| NewRoom (r : RoomId) (adaptiveStream dynacast : bool)
| On (r : RoomId) (ev : RoomEvent.t)
| Connect (r : RoomId) (url token : string)
| Disconnect (r : RoomId)
| CreateLocalAudioTrack (options : AudioCaptureOptions)
| PublishTrack (r : RoomId) (t : TrackId)
| TrackStop (t : TrackId)
| Attach (track : RemoteTrack) (el : ElemId)
| Detach (track : RemoteTrack)
| AppendChild (el : ElemId)
| ConsoleLog (line : string)
| ConsoleError (label : string) (err : JsExn).

(** A livekit [Room] object.  [listeners] holds, per [room.on] call, the
    event and the value of the [room] cell that the registered closure
    sees (the closures are created inside [startVoiceInterview], so
    [handleParticipantUpdate] inside them reads the [room] of the render
    in which the user clicked). *)
Record RoomObj := {
  connected : bool;
  listeners : list (RoomEvent.t * option RoomId);
  roster : list string;              (* identities in [room.participants] *)
  publications : list TrackId        (* local tracks published on the room *)
}.

Definition fresh_room : RoomObj :=
  {| connected := false; listeners := []; roster := []; publications := [] |}.

Record World := {
  now : string;                      (* [new Date().toLocaleTimeString()] *)
  stops_local_tracks : bool;         (* does the room service stop the tracks
                                        published on a room when it disconnects *)
  next_id : nat;                     (* supply of object handles *)
  rooms : gmap RoomId RoomObj;
  capturing : list TrackId;          (* local tracks whose device is held *)
  awaiting_mic : list RoomId;        (* [enableMicrophone] calls suspended at
                                        [await createLocalAudioTrack] *)
  attached : list (nat * ElemId);    (* remote track sid, element playing it *)
  autoplay : list ElemId;            (* elements with [autoplay = true] *)
  document_body : list ElemId;       (* children appended to [document.body] *)
  trace : list Effect                (* newest call first *)
}.

Definition initial_world (timestamp : string) (stops : bool) : World := {|
  now := timestamp;
  stops_local_tracks := stops;
  next_id := 0;
  rooms := ∅;
  capturing := [];
  awaiting_mic := [];
  attached := [];
  autoplay := [];
  document_body := [];
  trace := []
|}.

Record Sys := { ui : Component; env : World }.

Definition initial (timestamp : string) (stops : bool) : Sys :=
  {| ui := initial_component; env := initial_world timestamp stops |}.

(** The calls of a run in chronological order. *)
Definition history (s : Sys) : list Effect := rev (trace (env s)).

(** ** Field updates *)

Definition with_status v (c : Component) : Component :=
  {| status := v; statusType := statusType c; isConnecting := isConnecting c;
     isConnected := isConnected c; room := room c;
     localAudioTrack := localAudioTrack c; participants := participants c |}.
Definition with_statusType v (c : Component) : Component :=
  {| status := status c; statusType := v; isConnecting := isConnecting c;
     isConnected := isConnected c; room := room c;
     localAudioTrack := localAudioTrack c; participants := participants c |}.
Definition with_isConnecting v (c : Component) : Component :=
  {| status := status c; statusType := statusType c; isConnecting := v;
     isConnected := isConnected c; room := room c;
     localAudioTrack := localAudioTrack c; participants := participants c |}.
Definition with_isConnected v (c : Component) : Component :=
  {| status := status c; statusType := statusType c; isConnecting := isConnecting c;
     isConnected := v; room := room c;
     localAudioTrack := localAudioTrack c; participants := participants c |}.
Definition with_room v (c : Component) : Component :=
  {| status := status c; statusType := statusType c; isConnecting := isConnecting c;
     isConnected := isConnected c; room := v;
     localAudioTrack := localAudioTrack c; participants := participants c |}.
Definition with_localAudioTrack v (c : Component) : Component :=
  {| status := status c; statusType := statusType c; isConnecting := isConnecting c;
     isConnected := isConnected c; room := room c;
     localAudioTrack := v; participants := participants c |}.
Definition with_participants v (c : Component) : Component :=
  {| status := status c; statusType := statusType c; isConnecting := isConnecting c;
     isConnected := isConnected c; room := room c;
     localAudioTrack := localAudioTrack c; participants := v |}.

Definition with_next_id v (w : World) : World :=
  {| now := now w; stops_local_tracks := stops_local_tracks w; next_id := v;
     rooms := rooms w; capturing := capturing w; awaiting_mic := awaiting_mic w;
     attached := attached w; autoplay := autoplay w;
     document_body := document_body w; trace := trace w |}.
Definition with_rooms v (w : World) : World :=
  {| now := now w; stops_local_tracks := stops_local_tracks w; next_id := next_id w;
     rooms := v; capturing := capturing w; awaiting_mic := awaiting_mic w;
     attached := attached w; autoplay := autoplay w;
     document_body := document_body w; trace := trace w |}.
Definition with_capturing v (w : World) : World :=
  {| now := now w; stops_local_tracks := stops_local_tracks w; next_id := next_id w;
     rooms := rooms w; capturing := v; awaiting_mic := awaiting_mic w;
     attached := attached w; autoplay := autoplay w;
     document_body := document_body w; trace := trace w |}.
Definition with_awaiting_mic v (w : World) : World :=
  {| now := now w; stops_local_tracks := stops_local_tracks w; next_id := next_id w;
     rooms := rooms w; capturing := capturing w; awaiting_mic := v;
     attached := attached w; autoplay := autoplay w;
     document_body := document_body w; trace := trace w |}.
Definition with_attached v (w : World) : World :=
  {| now := now w; stops_local_tracks := stops_local_tracks w; next_id := next_id w;
     rooms := rooms w; capturing := capturing w; awaiting_mic := awaiting_mic w;
     attached := v; autoplay := autoplay w;
     document_body := document_body w; trace := trace w |}.
Definition with_autoplay v (w : World) : World :=
  {| now := now w; stops_local_tracks := stops_local_tracks w; next_id := next_id w;
     rooms := rooms w; capturing := capturing w; awaiting_mic := awaiting_mic w;
     attached := attached w; autoplay := v;
     document_body := document_body w; trace := trace w |}.
Definition with_document_body v (w : World) : World :=
  {| now := now w; stops_local_tracks := stops_local_tracks w; next_id := next_id w;
     rooms := rooms w; capturing := capturing w; awaiting_mic := awaiting_mic w;
     attached := attached w; autoplay := autoplay w;
     document_body := v; trace := trace w |}.
Definition with_trace v (w : World) : World :=
  {| now := now w; stops_local_tracks := stops_local_tracks w; next_id := next_id w;
     rooms := rooms w; capturing := capturing w; awaiting_mic := awaiting_mic w;
     attached := attached w; autoplay := autoplay w;
     document_body := document_body w; trace := v |}.

(** ** Asynchronous code: state passing with exceptions

    A computation runs on the single event loop, may change the
    component and the world, and completes normally or by throwing.
    State changes made before a throw stay. *)

Inductive Completion (A : Type) :=
| Normal (a : A)
| Thrown (err : JsExn).
Arguments Normal {A} a.
Arguments Thrown {A} err.

Definition Js (A : Type) : Type := Sys → Completion A * Sys.

Definition ret {A} (a : A) : Js A := λ s, (Normal a, s).

Definition bind {A B} (m : Js A) (k : A → Js B) : Js B :=
  λ s, match m s with
       | (Normal a, s') => k a s'
       | (Thrown e, s') => (Thrown e, s')
       end.

Definition throw {A} (err : JsExn) : Js A := λ s, (Thrown err, s).

(** [try { m } catch (err) { h err }] *)
Definition try_catch {A} (m : Js A) (h : JsExn → Js A) : Js A :=
  λ s, match m s with
       | (Normal a, s') => (Normal a, s')
       | (Thrown e, s') => h e s'
       end.

(** [try { m } finally { f }] *)
Definition try_finally {A} (m : Js A) (f : Js unit) : Js A :=
  λ s, match m s with
       | (c, s') =>
           match f s' with
           | (Normal _, s'') => (c, s'')
           | (Thrown e, s'') => (Thrown e, s'')
           end
       end.

Declare Scope js_scope.
Delimit Scope js_scope with js.
Notation "x ← m ; k" := (bind m (λ x, k))
  (at level 20, m at level 100, k at level 200, only parsing) : js_scope.
Notation "m ;; k" := (bind m (λ _, k))
  (at level 100, k at level 200, only parsing, right associativity) : js_scope.
Open Scope js_scope.

Definition get : Js Sys := λ s, (Normal s, s).
Definition on_ui (f : Component → Component) : Js unit :=
  λ s, (Normal tt, {| ui := f (ui s); env := env s |}).
Definition on_env (f : World → World) : Js unit :=
  λ s, (Normal tt, {| ui := ui s; env := f (env s) |}).

Definition call (e : Effect) : Js unit :=
  on_env (λ w, with_trace (e :: trace w) w).

Definition when (b : bool) (m : Js unit) : Js unit := if b then m else ret tt.

Fixpoint sequence_ (ms : list (Js unit)) : Js unit :=
  match ms with
  | [] => ret tt
  | m :: rest => m;; sequence_ rest
  end.

(** The [useState] setters. *)
Definition setStatus v := on_ui (with_status v).
Definition setStatusType v := on_ui (with_statusType v).
Definition setIsConnecting v := on_ui (with_isConnecting v).
Definition setIsConnected v := on_ui (with_isConnected v).
Definition setRoom v := on_ui (with_room v).
Definition setLocalAudioTrack v := on_ui (with_localAudioTrack v).
Definition setParticipants v := on_ui (with_participants v).

Definition console_log (line : string) : Js unit := call (ConsoleLog line).
Definition console_error (label : string) (err : JsExn) : Js unit :=
  call (ConsoleError label err).

(** Hands out the handle of a newly created object. *)
Definition fresh : Js nat :=
  s ← get;
  on_env (with_next_id (S (next_id (env s))));;
  ret (next_id (env s)).

(** ** The collaborators' operations *)

(** [new Date().toLocaleTimeString()] *)
Definition toLocaleTimeString : Js string := s ← get; ret (now (env s)).

(** [await fetch(url, init)]: the request goes out, then the promise
    settles as the backend (or the network) decides. *)
Definition fetch (rq : Request) (answer : FetchAnswer) : Js Response.t :=
  call (Fetch rq);;
  match answer with
  | inl rejection => throw rejection
  | inr response => ret response
  end.

(** [await response.json()] *)
Definition response_json (response : Response.t) : Js TokenResponse :=
  match Response.json response with
  | inl syntax_error => throw syntax_error
  | inr data => ret data
  end.

Definition with_connected v (o : RoomObj) : RoomObj :=
  {| connected := v; listeners := listeners o; roster := roster o;
     publications := publications o |}.
Definition with_listeners v (o : RoomObj) : RoomObj :=
  {| connected := connected o; listeners := v; roster := roster o;
     publications := publications o |}.
Definition with_roster v (o : RoomObj) : RoomObj :=
  {| connected := connected o; listeners := listeners o; roster := v;
     publications := publications o |}.
Definition with_publications v (o : RoomObj) : RoomObj :=
  {| connected := connected o; listeners := listeners o; roster := roster o;
     publications := v |}.

Definition update_room (r : RoomId) (f : RoomObj → RoomObj) : Js unit :=
  on_env (λ w, with_rooms (alter f r (rooms w)) w).

Definition lookup_room (r : RoomId) : Js (option RoomObj) :=
  s ← get; ret (rooms (env s) !! r).

(** [new Room({ adaptiveStream, dynacast })] *)
Definition new_Room (adaptiveStream dynacast : bool) : Js RoomId :=
  r ← fresh;
  on_env (λ w, with_rooms (<[r := fresh_room]> (rooms w)) w);;
  call (NewRoom r adaptiveStream dynacast);;
  ret r.

(** [room.on(ev, closure)], the closure seeing [seen] as the [room] cell. *)
Definition room_on (r : RoomId) (ev : RoomEvent.t) (seen : option RoomId) : Js unit :=
  update_room r (λ o, with_listeners (listeners o ++ [(ev, seen)]) o);;
  call (On r ev).

(** [track.attach()]: creates an audio element playing the track. *)
Definition track_attach (track : RemoteTrack) : Js ElemId :=
  el ← fresh;
  on_env (λ w, with_attached (attached w ++ [(sid track, el)]) w);;
  call (Attach track el);;
  ret el.

(** [audioElement.autoplay = true] *)
Definition set_autoplay (el : ElemId) : Js unit :=
  on_env (λ w, with_autoplay (autoplay w ++ [el]) w).

(** [document.body.appendChild(audioElement)] *)
Definition appendChild (el : ElemId) : Js unit :=
  on_env (λ w, with_document_body (document_body w ++ [el]) w);;
  call (AppendChild el).

(** [track.detach()]: unbinds the track from every element it plays in;
    the elements themselves stay where they are in the document. *)
Definition track_detach (track : RemoteTrack) : Js unit :=
  on_env (λ w, with_attached (filter (λ p, p.1 ≠ sid track) (attached w)) w);;
  call (Detach track).

(** [createLocalAudioTrack(options)] up to the point where the caller
    awaits it: the capture request is issued and the caller, working for
    room [r], is suspended. *)
Definition createLocalAudioTrack (options : AudioCaptureOptions) (r : RoomId) : Js unit :=
  call (CreateLocalAudioTrack options);;
  on_env (λ w, with_awaiting_mic (awaiting_mic w ++ [r]) w).

(** The capture promise settles: rejection (permission denied, no
    device) or a live track holding the microphone. *)
Definition createLocalAudioTrack_settles (answer : option JsExn) : Js TrackId :=
  match answer with
  | Some rejection => throw rejection
  | None =>
      t ← fresh;
      on_env (λ w, with_capturing (capturing w ++ [t]) w);;
      ret t
  end.

(** [await room.localParticipant.publishTrack(track)] *)
Definition publishTrack (r : RoomId) (t : TrackId) (answer : option JsExn) : Js unit :=
  call (PublishTrack r t);;
  match answer with
  | Some rejection => throw rejection
  | None => update_room r (λ o, with_publications (publications o ++ [t]) o)
  end.

(** [localAudioTrack.stop()]: frees the device. *)
Definition track_stop (t : TrackId) : Js unit :=
  call (TrackStop t);;
  on_env (λ w, with_capturing (filter (λ t', t' ≠ t) (capturing w)) w).

(** What the room service itself does to a [Room] when it emits [sig],
    before any listener runs.  On a disconnect the room is closed, its
    participant registry and publications are dropped, and, when
    [stops_local_tracks] is set, the local tracks that were published on
    it are stopped. *)
Definition service_transition (r : RoomId) (sig : RoomSignal) : Js unit :=
  match sig with
  | SigConnected => update_room r (with_connected true)
  | SigParticipantConnected p =>
      update_room r (λ o, with_roster (roster o ++ [identity p]) o)
  | SigParticipantDisconnected p =>
      update_room r (λ o, with_roster (filter (λ i, i ≠ identity p) (roster o)) o)
  | SigTrackSubscribed _ _ => ret tt
  | SigTrackUnsubscribed _ => ret tt
  | SigDisconnected =>
      s ← get;
      let published := from_option publications [] (rooms (env s) !! r) in
      when (stops_local_tracks (env s))
        (on_env (λ w, with_capturing (filter (λ t, t ∉ published) (capturing w)) w));;
      update_room r (λ o, with_connected false
                            (with_roster [] (with_publications [] o)))
  end.

(** ** The component's code *)

(** [updateStatus(message, type)] *)
Definition updateStatus (message : string) (type : Severity) : Js unit :=
  timestamp ← toLocaleTimeString;
  setStatus ("[" +:+ timestamp +:+ "] " +:+ message);;
  setStatusType type;;
  console_log ("[" +:+ timestamp +:+ "] " +:+ message).

Definition initRequest : Request := {|
  url := apiUrl CONFIG +:+ "/start_livekit_interview/";
  method := POST;
  headers := [("Content-Type", "application/json");
              ("Organization", organization CONFIG)];
  body := Some [("ref_num", JStr (referenceNumber CONFIG));
                ("custom_duration", JNum 30)]
|}.

Definition tokenRequest : Request := {|
  url := apiUrl CONFIG +:+ "/get_livekit_token/?ref_num=" +:+ referenceNumber CONFIG
         +:+ "&participant_name=" +:+ participantName CONFIG
         +:+ "&room_name=" +:+ roomName CONFIG;
  method := GET;
  headers := [("Organization", organization CONFIG)];
  body := None
|}.

Definition stopRequest : Request := {|
  url := apiUrl CONFIG +:+ "/stop_livekit_interview/";
  method := POST;
  headers := [("Content-Type", "application/json");
              ("Organization", organization CONFIG)];
  body := Some [("ref_num", JStr (referenceNumber CONFIG))]
|}.

(** How the backend answers the two requests of [getTokenFromBackend]. *)
Record BackendAnswers := {
  init_answer : FetchAnswer;
  token_answer : FetchAnswer
}.

Definition getTokenFromBackend (o : BackendAnswers) : Js TokenResponse :=
  try_catch
    (updateStatus "Initializing interview backend..." info;;
     initResponse ← fetch initRequest (init_answer o);
     when (negb (Response.ok initResponse))
       (throw (ErrorObj ("Init failed: " +:+ dec (Response.status initResponse)
                         +:+ " - " +:+ Response.text initResponse)));;
     updateStatus "Getting access token..." info;;
     tokenResponse ← fetch tokenRequest (token_answer o);
     when (negb (Response.ok tokenResponse))
       (throw (ErrorObj ("Token failed: " +:+ dec (Response.status tokenResponse)
                         +:+ " - " +:+ Response.text tokenResponse)));;
     tokenData ← response_json tokenResponse;
     ret tokenData)
    (λ err, console_error "Backend error:" err;; throw err).

(** [handleParticipantUpdate], reading the [room] its closure sees. *)
Definition handleParticipantUpdate (room : option RoomId) : Js unit :=
  match room with
  | None => setParticipants []
  | Some r =>
      o ← lookup_room r;
      setParticipants (from_option roster [] o)
  end.

(** [enableMicrophone(room)] up to its first [await]. *)
Definition enableMicrophone (room : RoomId) : Js unit :=
  updateStatus "🎤 Enabling microphone..." info;;
  createLocalAudioTrack
    {| echoCancellation := true; noiseSuppression := true; autoGainControl := true |}
    room.

(** How the browser and the room service answer the two awaits of
    [enableMicrophone]; [None] is success. *)
Record MicAnswers := {
  capture_answer : option JsExn;
  publish_answer : option JsExn
}.

(** The rest of [enableMicrophone(room)], from the settlement of
    [createLocalAudioTrack] on, inside the same [try]. *)
Definition enableMicrophone_resumed (room : RoomId) (o : MicAnswers) : Js unit :=
  try_catch
    (audioTrack ← createLocalAudioTrack_settles (capture_answer o);
     publishTrack room audioTrack (publish_answer o);;
     setLocalAudioTrack (Some audioTrack);;
     updateStatus "🎤✅ Microphone active! Speak to the AI interviewer. Agent should join shortly..." success)
    (λ err,
       updateStatus ("❌ Microphone error: " +:+ error_message err) error;;
       console_error "Microphone error:" err).

(** The six closures passed to [newRoom.on] in [startVoiceInterview];
    [seen] is the [room] cell as [handleParticipantUpdate] sees it. *)
Definition listener (newRoom : RoomId) (seen : option RoomId) (sig : RoomSignal) : Js unit :=
  match sig with
  | SigConnected =>
      updateStatus "🎉 Connected to LiveKit! Setting up microphone..." success;;
      setIsConnected true;;
      setRoom (Some newRoom);;
      handleParticipantUpdate seen;;
      enableMicrophone newRoom
  | SigParticipantConnected participant =>
      updateStatus ("👤 " +:+ identity participant +:+ " joined the interview") info;;
      handleParticipantUpdate seen
  | SigParticipantDisconnected participant =>
      updateStatus ("👋 " +:+ identity participant +:+ " left the interview") info;;
      handleParticipantUpdate seen
  | SigTrackSubscribed track participant =>
      match kind track with
      | Track.Audio =>
          updateStatus ("🔊 Now receiving audio from " +:+ identity participant) success;;
          audioElement ← track_attach track;
          set_autoplay audioElement;;
          appendChild audioElement
      | Track.Video => ret tt
      end
  | SigTrackUnsubscribed track =>
      track_detach track
  | SigDisconnected =>
      updateStatus "📴 Disconnected from interview" info;;
      setIsConnected false;;
      setRoom None;;
      setLocalAudioTrack None;;
      setParticipants []
  end.

(** The room service emits [sig] on room [r]: its own bookkeeping, then
    every listener registered for that event, in registration order. *)
Definition emit (r : RoomId) (sig : RoomSignal) : Js unit :=
  service_transition r sig;;
  o ← lookup_room r;
  sequence_ (map (λ l, listener r l.2 sig)
                 (List.filter (λ l, RoomEvent.eqb l.1 (signal_event sig))
                              (from_option listeners [] o))).

(** [await room.connect(url, token)]: on success the room service emits
    [Connected] before the promise resolves. *)
Definition room_connect (r : RoomId) (url token : string) (answer : option JsExn) : Js unit :=
  call (Connect r url token);;
  match answer with
  | Some rejection => throw rejection
  | None => emit r SigConnected
  end.

(** [await room.disconnect()]: closes the connection if it is open, which
    emits [Disconnected]; settles without raising. *)
Definition room_disconnect (r : RoomId) : Js unit :=
  call (Disconnect r);;
  o ← lookup_room r;
  when (from_option connected false o) (emit r SigDisconnected).

(** How the collaborators answer the awaits of [startVoiceInterview]. *)
Record StartAnswers := {
  backend : BackendAnswers;
  connect_answer : option JsExn
}.

Definition startVoiceInterview (o : StartAnswers) : Js unit :=
  render ← get;
  if isConnecting (ui render) || isConnected (ui render) then ret tt else
  setIsConnecting true;;
  updateStatus "Starting voice interview..." info;;
  try_finally
    (try_catch
       (tokenData ← getTokenFromBackend (backend o);
        updateStatus "✅ Token received, connecting to LiveKit..." success;;
        newRoom ← new_Room true true;
        room_on newRoom RoomEvent.Connected (room (ui render));;
        room_on newRoom RoomEvent.ParticipantConnected (room (ui render));;
        room_on newRoom RoomEvent.ParticipantDisconnected (room (ui render));;
        room_on newRoom RoomEvent.TrackSubscribed (room (ui render));;
        room_on newRoom RoomEvent.TrackUnsubscribed (room (ui render));;
        room_on newRoom RoomEvent.Disconnected (room (ui render));;
        room_connect newRoom (livekit_url tokenData) (token tokenData) (connect_answer o))
       (λ err,
          updateStatus ("❌ Connection failed: " +:+ error_message err) error;;
          console_error "Connection error:" err))
    (setIsConnecting false).

Definition stopVoiceInterview (teardown : FetchAnswer) : Js unit :=
  render ← get;
  updateStatus "Stopping interview..." info;;
  try_catch
    (match localAudioTrack (ui render) with
     | Some track => track_stop track;; setLocalAudioTrack None
     | None => ret tt
     end;;
     match room (ui render) with
     | Some r => room_disconnect r
     | None => ret tt
     end;;
     _ ← fetch stopRequest teardown;
     updateStatus "✅ Interview stopped successfully" success)
    (λ err,
       updateStatus ("❌ Stop error: " +:+ error_message err) error;;
       console_error "Stop error:" err).

(** The [disabled] attributes of the two buttons. *)
Definition start_button_disabled (c : Component) : bool :=
  isConnecting c || isConnected c.
Definition stop_button_disabled (c : Component) : bool :=
  negb (isConnected c).

(** ** The event loop *)

(** What can happen to the page: a call of one of the two entry points,
    an event that the room service emits on a connected room, or the
    settlement of a pending microphone request.

    [startVoiceInterview] and [stopVoiceInterview] are run to completion
    on the answers they are given: the schedule in which nothing else
    happens while they await.  [enableMicrophone] is started by the
    [Connected] listener without being awaited, so its continuation is an
    action of its own, which may come after any number of others. *)
Inductive Action :=
| Start (o : StartAnswers)
| Stop (teardown : FetchAnswer)
| RoomEmits (r : RoomId) (sig : RoomSignal)
| MicSettles (o : MicAnswers).

Definition perform (a : Action) : Js unit :=
  match a with
  | Start o => startVoiceInterview o
  | Stop teardown => stopVoiceInterview teardown
  | RoomEmits r sig =>
      o ← lookup_room r;
      match sig with
      | SigConnected => ret tt       (* only [room.connect] raises it *)
      | _ => when (from_option connected false o) (emit r sig)
      end
  | MicSettles o =>
      s ← get;
      match awaiting_mic (env s) with
      | [] => ret tt
      | r :: rest =>
          on_env (with_awaiting_mic rest);;
          enableMicrophone_resumed r o
      end
  end.

Definition step (s : Sys) (a : Action) : Sys := (perform a s).2.

Definition run (s : Sys) (script : list Action) : Sys := foldl step s script.

(** ** What is observed of a run *)

(** The spec's connection states, as far as the component's cells tell
    them apart: the two flags, and the severity of the last status line
    once neither flag is set.  A session that was disconnected has the
    cells of an idle one, so Disconnected is not told apart from Idle. *)
Inductive ConnectionState := Idle | Connecting | Connected | Failed.

Definition session_state (c : Component) : ConnectionState :=
  if isConnected c then Connected
  else if isConnecting c then Connecting
  else match statusType c with
       | error => Failed
       | _ => Idle
       end.

Definition request_of (e : Effect) : option Request :=
  match e with Fetch rq => Some rq | _ => None end.

Definition connect_of (e : Effect) : option (RoomId * string * string) :=
  match e with Connect r u t => Some (r, u, t) | _ => None end.

Definition capture_of (e : Effect) : option AudioCaptureOptions :=
  match e with CreateLocalAudioTrack options => Some options | _ => None end.

Definition publish_of (e : Effect) : option (RoomId * TrackId) :=
  match e with PublishTrack r t => Some (r, t) | _ => None end.

Definition track_stop_of (e : Effect) : option TrackId :=
  match e with TrackStop t => Some t | _ => None end.

Definition attach_of (e : Effect) : option RemoteTrack :=
  match e with Attach track _ => Some track | _ => None end.

Definition detach_of (e : Effect) : option RemoteTrack :=
  match e with Detach track => Some track | _ => None end.

(** Calls made on a [Room] object: construction, [on], [connect],
    [disconnect]. *)
Definition room_call_of (e : Effect) : option Effect :=
  match e with
  | NewRoom _ _ _ | On _ _ | Connect _ _ _ | Disconnect _ => Some e
  | _ => None
  end.

(** The calls of one sort made so far, oldest first. *)
Definition seen {X} (f : Effect → option X) (s : Sys) : list X :=
  rev (omap f (trace (env s))).

Definition requests : Sys → list Request := seen request_of.
Definition connect_attempts : Sys → list (RoomId * string * string) := seen connect_of.
Definition capture_requests : Sys → list AudioCaptureOptions := seen capture_of.
Definition publish_calls : Sys → list (RoomId * TrackId) := seen publish_of.
Definition track_stops : Sys → list TrackId := seen track_stop_of.
Definition attach_calls : Sys → list RemoteTrack := seen attach_of.
Definition detach_calls : Sys → list RemoteTrack := seen detach_of.
Definition room_calls : Sys → list Effect := seen room_call_of.

(** The transport connection of room [r] is open. *)
Definition connection_open (s : Sys) (r : RoomId) : Prop :=
  connected <$> rooms (env s) !! r = Some true.

(** The listeners registered on room [r], in registration order. *)
Definition registered (s : Sys) (r : RoomId) : list RoomEvent.t :=
  from_option (λ o, (listeners o).*1) [] (rooms (env s) !! r).

(** [hay.includes(needle)] *)
Definition includes (needle hay : string) : Prop :=
  ∃ pre post, hay = pre +:+ needle +:+ post.

(** The request has an [Organization] header naming the tenant. *)
Definition carries_organization (rq : Request) : Prop :=
  ("Organization", organization CONFIG) ∈ headers rq.

(** A computation keeps a relation between the world before and after
    it, whatever the state it starts from. *)
Definition respects (Q : relation World) {A} (m : Js A) : Prop :=
  ∀ s, Q (env s) (env (m s).2).

(** A computation never throws. *)
Definition returns {A} (m : Js A) : Prop :=
  ∀ s, ∃ a, (m s).1 = Normal a.

(** The computation sends exactly the requests [sent], in that order,
    whether it returns or throws. *)
Definition sends (sent : list Request) {A} (m : Js A) : Prop :=
  ∀ s, requests (m s).2 = (requests s ++ sent)%list.

(** The document only gains children. *)
Definition body_grows (w w' : World) : Prop :=
  document_body w `prefix_of` document_body w'.

(** No request goes out. *)
Definition no_request (w w' : World) : Prop :=
  omap request_of (trace w') = omap request_of (trace w).

(** No device is taken. *)
Definition no_capture (w w' : World) : Prop :=
  capturing w' ⊆ capturing w.

(** Whatever held of every request sent so far still holds. *)
Definition requests_keep (P : Request → Prop) (w w' : World) : Prop :=
  Forall P (omap request_of (trace w)) → Forall P (omap request_of (trace w')).

(** No microphone capture is requested. *)
Definition no_capture_request (w w' : World) : Prop :=
  omap capture_of (trace w') = omap capture_of (trace w).

(** The listeners that [calls] (oldest first) registers on room [r]
    before the first [connect] on that room. *)
Fixpoint registered_before_connect (r : RoomId) (calls : list Effect) : list RoomEvent.t :=
  match calls with
  | [] => []
  | Connect r' _ _ :: rest =>
      if (r' =? r)%nat then [] else registered_before_connect r rest
  | On r' ev :: rest =>
      if (r' =? r)%nat then ev :: registered_before_connect r rest
      else registered_before_connect r rest
  | _ :: rest => registered_before_connect r rest
  end.

(** The six events [startVoiceInterview] listens to, in the order of its
    [newRoom.on] calls. *)
Definition six_events : list RoomEvent.t :=
  [RoomEvent.Connected; RoomEvent.ParticipantConnected;
   RoomEvent.ParticipantDisconnected; RoomEvent.TrackSubscribed;
   RoomEvent.TrackUnsubscribed; RoomEvent.Disconnected].


(** The [Room] objects are left alone. *)
Definition same_rooms (w w' : World) : Prop := rooms w' = rooms w.


(** ** Scenario data *)

Definition credential : TokenResponse := {|
  tr_success := true;
  token := "abc";
  livekit_url := "wss://x";
  room_name := "interview_NORMALIZED_TEST_001";
  participant_name := "candidate_prajwal"
|}.

Definition http (code : nat) (payload : string) : Response.t :=
  {| Response.status := code; Response.text := payload;
     Response.json := inl (ErrorObj "Unexpected token") |}.

Definition http_credential : Response.t :=
  {| Response.status := 200; Response.text := "OK";
     Response.json := inr credential |}.

(** Initialize answers 200, the credential request answers 200 with
    [credential], the connection opens. *)
Definition all_good : StartAnswers := {|
  backend := {| init_answer := inr (http 200 "OK");
                token_answer := inr http_credential |};
  connect_answer := None
|}.

(** The credential request answers with [code] and [payload]. *)
Definition credential_refused (code : nat) (payload : string) : StartAnswers := {|
  backend := {| init_answer := inr (http 200 "OK");
                token_answer := inr (http code payload) |};
  connect_answer := None
|}.

Definition mic_granted : MicAnswers :=
  {| capture_answer := None; publish_answer := None |}.
Definition publish_refused : MicAnswers :=
  {| capture_answer := None;
     publish_answer := Some (ErrorObj "insufficient permissions to publish") |}.

Definition agent : Participant := {| identity := "agent" |}.
Definition agent_audio : RemoteTrack := {| sid := 7; kind := Track.Audio |}.

(** ** The rendered page *)

(** [getStatusColor()], on the [statusType] cell. *)
Definition getStatusColor (statusType : Severity) : string :=
  match statusType with
  | success => "bg-green-100 text-green-800 border-green-200"
  | error => "bg-red-100 text-red-800 border-red-200"
  | warning => "bg-yellow-100 text-yellow-800 border-yellow-200"
  | _ => "bg-blue-100 text-blue-800 border-blue-200"
  end.

(** The "Connected Participants" panel: one card per identity, or a
    notice when the list is empty. *)
Inductive ParticipantsPanel :=
| Cards (lines : list string)
| Notice (text : string).

Definition participants_panel (c : Component) : ParticipantsPanel :=
  if (0 <? length (participants c))%nat
  then Cards (map (λ identity, "🎤 " +:+ identity) (participants c))
  else Notice (if isConnected c then "Only you are connected"
               else "No participants connected").

(** ** What holds of every state the page can reach *)

(** The listeners of a room set up by [startVoiceInterview] from a
    render whose [room] cell is null. *)
Definition wired : list (RoomEvent.t * option RoomId) :=
  [(RoomEvent.Connected, None); (RoomEvent.ParticipantConnected, None);
   (RoomEvent.ParticipantDisconnected, None); (RoomEvent.TrackSubscribed, None);
   (RoomEvent.TrackUnsubscribed, None); (RoomEvent.Disconnected, None)].

(** Every [Room] object carries exactly those listeners, and only the
    room recorded in the [room] cell can have its connection open. *)
Definition wired_rooms (recorded : option RoomId) (rs : gmap RoomId RoomObj) : Prop :=
  ∀ r o, rs !! r = Some o →
    listeners o = wired ∧ (connected o = true → recorded = Some r).

(** The [isConnected] flag is set exactly when a room is recorded, and
    the recorded room's connection is open. *)
Definition recorded_room_open (c : Component) (rs : gmap RoomId RoomObj) : Prop :=
  match room c with
  | Some r => isConnected c = true ∧ connected <$> rs !! r = Some true
  | None => isConnected c = false
  end.

(** Every element a remote track plays in is an autoplay child of the
    document. *)
Definition sinks_in_document (w : World) : Prop :=
  Forall (λ p, p.2 ∈ document_body w ∧ p.2 ∈ autoplay w) (attached w).

Definition log_of (e : Effect) : option string :=
  match e with ConsoleLog line => Some line | _ => None end.

(** The status line on the page is the last line written with
    [console.log], or the initial text while nothing was logged. *)
Definition status_is_last_log (s : Sys) : Prop :=
  match omap log_of (trace (env s)) with
  | [] => status (ui s) = status initial_component
          ∧ statusType (ui s) = statusType initial_component
  | line :: _ => status (ui s) = line
  end.

Definition consistent (s : Sys) : Prop :=
  isConnecting (ui s) = false
  ∧ participants (ui s) = []
  ∧ wired_rooms (room (ui s)) (rooms (env s))
  ∧ recorded_room_open (ui s) (rooms (env s))
  ∧ sinks_in_document (env s)
  ∧ status_is_last_log s.

(** The requests a single action can send: nothing, the initialize
    request alone, initialize followed by the credential request, or the
    teardown request. *)
Definition request_blocks : list (list Request) :=
  [[]; [initRequest]; [initRequest; tokenRequest]; [stopRequest]].

(** The computation completes normally from [s] in state [s']. *)
Definition settles {A} (m : Js A) (s s' : Sys) : Prop :=
  ∃ a, m s = (Normal a, s').

(** ** Evaluation of the component's code on a state given by its fields *)

Ltac js_eval :=
  cbv beta iota zeta delta
    [step perform startVoiceInterview stopVoiceInterview getTokenFromBackend
     enableMicrophone enableMicrophone_resumed listener emit room_connect
     room_disconnect handleParticipantUpdate updateStatus service_transition
     toLocaleTimeString fetch response_json update_room lookup_room new_Room room_on
     track_attach set_autoplay appendChild track_detach createLocalAudioTrack
     createLocalAudioTrack_settles publishTrack track_stop
     setStatus setStatusType setIsConnecting setIsConnected setRoom
     setLocalAudioTrack setParticipants console_log console_error fresh
     bind ret throw try_catch try_finally get on_ui on_env call when
     ui env status statusType isConnecting isConnected room localAudioTrack participants
     now stops_local_tracks next_id rooms capturing awaiting_mic attached autoplay
     document_body trace
     connected listeners roster publications
     with_connected with_listeners with_roster with_publications fresh_room
     with_status with_statusType with_isConnecting with_isConnected with_room
     with_localAudioTrack with_participants with_next_id with_rooms with_capturing
     with_awaiting_mic with_attached with_autoplay with_document_body with_trace
     backend connect_answer init_answer token_answer capture_answer publish_answer
     fst snd orb andb negb from_option signal_event fmap option_fmap option_map
     session_state seen requests connect_attempts capture_requests publish_calls
     track_stops attach_calls detach_calls room_calls request_of connect_of
     capture_of publish_of track_stop_of attach_of detach_of room_call_of
     registered connection_open];
  cbn [sequence_ List.map List.filter RoomEvent.eqb app omap list_omap rev
       list_fmap fst snd].

Ltac js_run := repeat progress js_eval.

(** Splits a state into the variables for its fields. *)
Ltac open_state s :=
  let c := fresh "c" in
  let w := fresh "w" in
  destruct s as [c w];
  destruct c as [c_status c_statusType c_isConnecting c_isConnected c_room
                 c_track c_participants];
  destruct w as [w_now w_stops w_next w_rooms w_capturing w_awaiting w_attached
                 w_autoplay w_body w_trace];
  cbn [ui env status statusType isConnecting isConnected room localAudioTrack
       participants now stops_local_tracks next_id rooms capturing awaiting_mic
       attached autoplay document_body trace] in *.

(** Evaluates a conjunction of facts about a scenario given in full. *)
Ltac evaluate_scenario :=
  repeat match goal with
         | |- _ ∧ _ => split
         | |- ¬ _ => vm_compute; discriminate
         | |- _ => vm_compute; reflexivity
         end.

(** ** Strings *)

Lemma append_assoc (a b c : string) : (a +:+ b) +:+ c = a +:+ b +:+ c.
Proof.
  induction a as [|x a IH]; [reflexivity |].
  change (String x ((a +:+ b) +:+ c) = String x (a +:+ b +:+ c)).
  by rewrite IH.
Qed.

Lemma includes_head needle rest : includes needle (needle +:+ rest).
Proof. by exists EmptyString, rest. Qed.

Lemma includes_skip needle pre hay : includes needle hay → includes needle (pre +:+ hay).
Proof.
  intros (a & b & ->). exists (pre +:+ a), b. by rewrite append_assoc.
Qed.

Lemma includes_tail needle : includes needle needle.
Proof.
  exists EmptyString, EmptyString. change (needle = needle +:+ EmptyString).
  induction needle as [|x n IH]; [reflexivity |].
  change (String x n = String x (n +:+ EmptyString)). by rewrite <- IH.
Qed.

(** ** The re-entrancy guard of [startVoiceInterview] *)

(** C2. Called while [isConnecting] or [isConnected] is set,
    [startVoiceInterview] returns at once and leaves the component and
    every collaborator as they were: no request is sent and no
    connection attempt is added. *)
Theorem start_guard_is_noop (o : StartAnswers) (s : Sys) :
  isConnecting (ui s) = true ∨ isConnected (ui s) = true →
  startVoiceInterview o s = (Normal (), s)
  ∧ requests (step s (Start o)) = requests s
  ∧ connect_attempts (step s (Start o)) = connect_attempts s
  ∧ room_calls (step s (Start o)) = room_calls s.
Proof.
  intros guard.
  assert (startVoiceInterview o s = (Normal (), s)) as E.
  { unfold startVoiceInterview, bind, get.
    destruct guard as [-> | ->]; [reflexivity | by rewrite orb_true_r]. }
  unfold step, perform. by rewrite E.
Qed.

Lemma start_guard_is_noop_witness :
  let s := step (initial "10:00:00" true) (Start all_good) in
  isConnected (ui s) = true
  ∧ startVoiceInterview all_good s = (Normal (), s)
  ∧ requests (step s (Start all_good)) = [initRequest; tokenRequest].
Proof.
  intros s.
  assert (isConnected (ui s) = true) as connected_now by reflexivity.
  destruct (start_guard_is_noop all_good s (or_intror connected_now))
    as (unchanged & same_requests & _).
  split; [exact connected_now | split; [exact unchanged |]].
  rewrite same_requests. reflexivity.
Defined.

(** ** Failure of the credential request *)

(** C3. From a session that is neither connecting nor connected, when
    the initialize request succeeds and the credential request is
    answered with a status outside 200-299, [startVoiceInterview] ends
    with both flags clear and an error-severity status line that
    contains the status code and the response body; no [Room] is
    created and no connection attempt is made. *)
Theorem credential_refusal_fails_session
    (o : StartAnswers) (s : Sys) (init cred : Response.t) :
  isConnecting (ui s) = false → isConnected (ui s) = false →
  init_answer (backend o) = inr init → Response.ok init = true →
  token_answer (backend o) = inr cred → Response.ok cred = false →
  let s' := step s (Start o) in
  session_state (ui s') = Failed
  ∧ isConnecting (ui s') = false ∧ isConnected (ui s') = false
  ∧ statusType (ui s') = error
  ∧ status (ui s') =
      "[" +:+ now (env s) +:+ "] " +:+ "❌ Connection failed: " +:+ "Token failed: "
      +:+ dec (Response.status cred) +:+ " - " +:+ Response.text cred
  ∧ includes (dec (Response.status cred)) (status (ui s'))
  ∧ includes (Response.text cred) (status (ui s'))
  ∧ connect_attempts s' = connect_attempts s
  ∧ room_calls s' = room_calls s
  ∧ rooms (env s') = rooms (env s)
  ∧ requests s' = (requests s ++ [initRequest; tokenRequest])%list.
Proof.
  intros idle1 idle2 Hinit init_ok Hcred cred_bad.
  open_state s. destruct o as [[ia ta] ca].
  cbn [backend init_answer token_answer] in *. subst.
  js_run. rewrite init_ok. js_run. rewrite cred_bad. js_run.
  repeat split.
  - do 5 apply includes_skip. apply includes_head.
  - do 7 apply includes_skip. apply includes_tail.
  - by rewrite <- app_assoc.
Qed.

Lemma credential_refusal_fails_session_witness :
  let s' := step (initial "10:00:00" true) (Start (credential_refused 500 "server error")) in
  session_state (ui s') = Failed
  ∧ status (ui s') = "[10:00:00] ❌ Connection failed: Token failed: 500 - server error"
  ∧ includes "500" (status (ui s'))
  ∧ includes "server error" (status (ui s'))
  ∧ connect_attempts s' = [].
Proof.
  destruct (credential_refusal_fails_session
              (credential_refused 500 "server error") (initial "10:00:00" true)
              (http 200 "OK") (http 500 "server error")
              eq_refl eq_refl eq_refl eq_refl eq_refl eq_refl)
    as (failed & _ & _ & _ & line & has_code & has_body & no_connect & _).
  exact (conj failed (conj line (conj has_code (conj has_body no_connect)))).
Defined.

(** ** Relations that every piece of the code keeps *)

Section Respects.
Context (Q : relation World) `{!PreOrder Q}.

Lemma respects_ret {A} (a : A) : respects Q (ret a).
Proof. intros s. reflexivity. Qed.

Lemma respects_throw {A} (e : JsExn) : respects Q (@throw A e).
Proof. intros s. reflexivity. Qed.

Lemma respects_get : respects Q get.
Proof. intros s. reflexivity. Qed.

Lemma respects_on_ui (f : Component → Component) : respects Q (on_ui f).
Proof. intros s. reflexivity. Qed.

Lemma respects_on_env (f : World → World) :
  (∀ w, Q w (f w)) → respects Q (on_env f).
Proof. intros step_ok s. apply step_ok. Qed.

Lemma respects_bind {A B} (m : Js A) (k : A → Js B) :
  respects Q m → (∀ a, respects Q (k a)) → respects Q (bind m k).
Proof.
  intros Hm Hk s. unfold bind. specialize (Hm s).
  destruct (m s) as [[a|e] s1]; cbn in *; [| exact Hm].
  etrans; [exact Hm | apply Hk].
Qed.

Lemma respects_try_catch {A} (m : Js A) (h : JsExn → Js A) :
  respects Q m → (∀ e, respects Q (h e)) → respects Q (try_catch m h).
Proof.
  intros Hm Hh s. unfold try_catch. specialize (Hm s).
  destruct (m s) as [[a|e] s1]; cbn in *; [exact Hm |].
  etrans; [exact Hm | apply Hh].
Qed.

Lemma respects_try_finally {A} (m : Js A) (f : Js unit) :
  respects Q m → respects Q f → respects Q (try_finally m f).
Proof.
  intros Hm Hf s. unfold try_finally. specialize (Hm s).
  destruct (m s) as [c s1]. specialize (Hf s1).
  destruct (f s1) as [[[]|e] s2]; cbn in *; etrans; eassumption.
Qed.

Lemma respects_when (b : bool) (m : Js unit) : respects Q m → respects Q (when b m).
Proof. destruct b; [done | intros _; apply respects_ret]. Qed.

Lemma respects_sequence_ (ms : list (Js unit)) :
  Forall (respects Q) ms → respects Q (sequence_ ms).
Proof.
  induction 1 as [|m ms Hm _ IH]; [apply respects_ret |].
  by apply respects_bind.
Qed.

Lemma respects_sequence_map {X} (f : X → Js unit) (xs : list X) :
  (∀ x, respects Q (f x)) → respects Q (sequence_ (map f xs)).
Proof.
  intros Hf. apply respects_sequence_, Forall_forall.
  intros m (x & -> & _)%list_elem_of_fmap. apply Hf.
Qed.
End Respects.

(** A relation kept by every action is kept by every run. *)
Lemma run_respects (Q : relation World) `{!PreOrder Q} :
  (∀ a, respects Q (perform a)) →
  ∀ script s, Q (env s) (env (run s script)).
Proof.
  intros every script. induction script as [|a script IH]; intros s; [reflexivity |].
  cbn. etrans; [apply (every a s) | apply IH].
Qed.

(** Never throwing, through the same combinators. *)

Lemma returns_ret {A} (a : A) : returns (ret a).
Proof. intros s. by exists a. Qed.

Lemma returns_get : returns get.
Proof. intros s. by exists s. Qed.

Lemma returns_on_ui f : returns (on_ui f).
Proof. intros s. by exists (). Qed.

Lemma returns_on_env f : returns (on_env f).
Proof. intros s. by exists (). Qed.

Lemma returns_bind {A B} (m : Js A) (k : A → Js B) :
  returns m → (∀ a, returns (k a)) → returns (bind m k).
Proof.
  intros Hm Hk s. unfold bind. destruct (Hm s) as [a Ha].
  destruct (m s) as [c s1]; cbn in *; subst. apply Hk.
Qed.

Lemma returns_when (b : bool) (m : Js unit) : returns m → returns (when b m).
Proof. destruct b; [done | intros _; apply returns_ret]. Qed.

Lemma returns_sequence_map {X} (f : X → Js unit) (xs : list X) :
  (∀ x, returns (f x)) → returns (sequence_ (map f xs)).
Proof.
  intros Hf. induction xs as [|x xs IH]; [apply returns_ret |].
  apply returns_bind; [apply Hf | intros _; exact IH].
Qed.

#[global] Instance body_grows_preorder : PreOrder body_grows.
Proof.
  split; [intros w; exists []; by rewrite app_nil_r |].
  intros w1 w2 w3 [k1 E1] [k2 E2]. exists (k1 ++ k2)%list.
  rewrite E2, E1. by rewrite <- app_assoc.
Qed.

#[global] Instance no_request_preorder : PreOrder no_request.
Proof.
  split; [intros w; reflexivity |].
  unfold no_request. intros w1 w2 w3 E1 E2. by rewrite E2.
Qed.

#[global] Instance no_capture_preorder : PreOrder no_capture.
Proof.
  split; [intros w; unfold no_capture; reflexivity |].
  unfold no_capture. intros w1 w2 w3 E1 E2. by etrans.
Qed.

#[global] Instance requests_keep_preorder P : PreOrder (requests_keep P).
Proof.
  split; [intros w H; exact H |].
  intros w1 w2 w3 E1 E2 H. apply E2, E1, H.
Qed.

Create HintDb js_code.
#[global] Hint Unfold
  startVoiceInterview stopVoiceInterview getTokenFromBackend enableMicrophone
  enableMicrophone_resumed listener emit room_connect room_disconnect
  handleParticipantUpdate updateStatus service_transition toLocaleTimeString fetch
  response_json update_room lookup_room new_Room room_on track_attach set_autoplay
  appendChild track_detach createLocalAudioTrack createLocalAudioTrack_settles
  publishTrack track_stop setStatus setStatusType setIsConnecting setIsConnected
  setRoom setLocalAudioTrack setParticipants console_log console_error fresh call
  : js_code.

(** Walks through a piece of code down to its updates of the world,
    which are left as goals [respects Q (on_env f)]. *)
Ltac respects_walk :=
  repeat (cbv beta iota; lazymatch goal with
  | |- respects _ (ret _) => refine (respects_ret _ _)
  | |- respects _ (throw _) => refine (respects_throw _ _)
  | |- respects _ get => refine (respects_get _)
  | |- respects _ (on_ui _) => refine (respects_on_ui _ _)
  | |- respects _ (on_env _) => fail
  | |- respects _ (bind _ _) => refine (respects_bind _ _ _ _ _); [| intros ?]
  | |- respects _ (try_catch _ _) => refine (respects_try_catch _ _ _ _ _); [| intros ?]
  | |- respects _ (try_finally _ _) => refine (respects_try_finally _ _ _ _ _)
  | |- respects _ (when _ _) => refine (respects_when _ _ _ _)
  | |- respects _ (sequence_ (map _ _)) => refine (respects_sequence_map _ _ _ _); intros ?
  | |- respects _ (match ?x with _ => _ end) => destruct x
  | |- respects _ _ => progress autounfold with js_code
  end).

Ltac returns_walk :=
  repeat (cbv beta iota; lazymatch goal with
  | |- returns (ret _) => apply returns_ret
  | |- returns get => apply returns_get
  | |- returns (on_ui _) => apply returns_on_ui
  | |- returns (on_env _) => apply returns_on_env
  | |- returns (bind _ _) => apply returns_bind; [| intros ?]
  | |- returns (when _ _) => apply returns_when
  | |- returns (sequence_ (map _ _)) => apply returns_sequence_map; intros ?
  | |- returns (throw _) => fail
  | |- returns (match ?x with _ => _ end) => destruct x
  | |- returns _ => progress autounfold with js_code
  end).

(** *** The document only gains children *)

Lemma perform_body_grows (a : Action) : respects body_grows (perform a).
Proof.
  unfold perform. respects_walk;
    refine (respects_on_env _ _ _); intros w; unfold body_grows; cbn; try reflexivity.
  all: by apply prefix_app_r.
Qed.

Lemma run_body_grows (script : list Action) (s : Sys) :
  body_grows (env s) (env (run s script)).
Proof. apply (run_respects body_grows perform_body_grows). Qed.

(** ** Remote playback elements *)

(** C6. An audio track is subscribed and then unsubscribed on the open
    room: the code attaches once and detaches once, and the track is no
    longer bound to any element, but the autoplay audio element that was
    appended to the document is still a child of [document.body], and
    stays one whatever happens next (further events, [stopVoiceInterview],
    a new session). *)
Theorem playback_element_stays_in_document
    (timestamp : string) (stops : bool) (rest : list Action) :
  let played :=
    run (initial timestamp stops)
        [Start all_good;
         RoomEmits 0 (SigTrackSubscribed agent_audio agent);
         RoomEmits 0 (SigTrackUnsubscribed agent_audio)] in
  attach_calls played = [agent_audio]
  ∧ detach_calls played = [agent_audio]
  ∧ attached (env played) = []
  ∧ autoplay (env played) = [1]
  ∧ document_body (env played) = [1]
  ∧ 1 ∈ document_body (env (run played rest)).
Proof.
  intros played.
  assert (document_body (env played) = [1]) as in_document by (vm_compute; reflexivity).
  split; [vm_compute; reflexivity |].
  split; [vm_compute; reflexivity |].
  split; [vm_compute; reflexivity |].
  split; [vm_compute; reflexivity |].
  split; [exact in_document |].
  clearbody played.
  destruct (run_body_grows rest played) as [more grown].
  rewrite grown, in_document. set_solver.
Qed.

(** ** Requests sent to the backend *)

Lemma no_request_seen (s s' : Sys) :
  no_request (env s) (env s') → requests s' = requests s.
Proof. unfold no_request, requests, seen. by intros ->. Qed.

Section Sends.
Lemma sends_nothing {A} (m : Js A) : respects no_request m → sends [] m.
Proof. intros quiet s. rewrite app_nil_r. apply no_request_seen, quiet. Qed.

Lemma sends_fetch (rq : Request) (answer : FetchAnswer) : sends [rq] (fetch rq answer).
Proof. intros s. unfold fetch. destruct answer; reflexivity. Qed.

Lemma sends_after_quiet {A B} sent (m : Js A) (k : A → Js B) :
  respects no_request m → returns m → (∀ a, sends sent (k a)) →
  sends sent (bind m k).
Proof.
  intros quiet total Hk s. unfold bind.
  specialize (quiet s). destruct (total s) as [a Ha].
  destruct (m s) as [c s1]; cbn in *; subst.
  rewrite Hk. f_equal. by apply no_request_seen.
Qed.

Lemma sends_before_quiet {A B} sent (m : Js A) (k : A → Js B) :
  sends sent m → (∀ a, respects no_request (k a)) → sends sent (bind m k).
Proof.
  intros Hm quiet s. unfold bind. specialize (Hm s).
  destruct (m s) as [[a|e] s1]; cbn in *; [| exact Hm].
  rewrite <- Hm. apply no_request_seen, quiet.
Qed.

Lemma sends_try_catch {A} sent (m : Js A) (h : JsExn → Js A) :
  sends sent m → (∀ e, respects no_request (h e)) → sends sent (try_catch m h).
Proof.
  intros Hm quiet s. unfold try_catch. specialize (Hm s).
  destruct (m s) as [[a|e] s1]; cbn in *; [exact Hm |].
  rewrite <- Hm. apply no_request_seen, quiet.
Qed.
End Sends.

(** Closes the leaves of [respects_walk] for [no_request]: the calls
    that are not a [fetch]. *)
Ltac quiet_leaves :=
  refine (respects_on_env _ _ _); intros w; unfold no_request; reflexivity.

Lemma emit_sends_no_request (r : RoomId) (sig : RoomSignal) :
  respects no_request (emit r sig).
Proof. destruct sig; respects_walk; quiet_leaves. Qed.

Lemma emit_returns (r : RoomId) (sig : RoomSignal) : returns (emit r sig).
Proof. destruct sig; returns_walk. Qed.


(** ** A successful start *)

#[global] Instance no_capture_request_preorder : PreOrder no_capture_request.
Proof.
  split; [intros w; reflexivity |].
  unfold no_capture_request. intros w1 w2 w3 E1 E2. by rewrite E2.
Qed.



(** A start whose connection attempt is rejected requests no capture. *)
Lemma rejected_connection_requests_no_microphone
    (o : StartAnswers) (s : Sys) (init cred : Response.t) (data : TokenResponse)
    (rejection : JsExn) :
  isConnecting (ui s) = false → isConnected (ui s) = false →
  init_answer (backend o) = inr init → Response.ok init = true →
  token_answer (backend o) = inr cred → Response.ok cred = true →
  Response.json cred = inr data →
  connect_answer o = Some rejection →
  let s' := step s (Start o) in
  capture_requests s' = capture_requests s
  ∧ isConnected (ui s') = false
  ∧ statusType (ui s') = error
  ∧ ¬ connection_open s' (next_id (env s)).
Proof.
  intros idle1 idle2 Hinit init_ok Hcred cred_ok Hjson Hconnect s'. subst s'.
  open_state s. destruct o as [[ia ta] ca].
  cbn [backend init_answer token_answer connect_answer] in *. subst.
  js_run. rewrite init_ok. js_run. rewrite cred_ok. js_run. rewrite Hjson. js_run.
  rewrite !alter_insert_eq, !lookup_insert_eq. by repeat split.
Qed.



(** ** Listener registration *)

(** C7, as stated, fails: on a successful start the listeners registered
    on the room before the connection attempt are six, not five. *)
Lemma five_listeners_counterexample :
  let s := step (initial "10:00:00" true) (Start all_good) in
  registered_before_connect 0 (history s) = six_events
  ∧ length (registered_before_connect 0 (history s)) ≠ 5.
Proof. split; [vm_compute; reflexivity | vm_compute; discriminate]. Qed.

(** C7, amended. From a session that is neither connecting nor
    connected, when both backend requests succeed, the calls that
    [startVoiceInterview] makes on the room are, in this order: its
    construction, the registration of six listeners (connected,
    participant-joined, participant-left, track-subscribed,
    track-unsubscribed, disconnected), and only then the connection
    attempt, whether or not that attempt succeeds. *)
Theorem six_listeners_registered_before_connect
    (o : StartAnswers) (s : Sys) (init cred : Response.t) (data : TokenResponse) :
  isConnecting (ui s) = false → isConnected (ui s) = false →
  init_answer (backend o) = inr init → Response.ok init = true →
  token_answer (backend o) = inr cred → Response.ok cred = true →
  Response.json cred = inr data →
  let r := next_id (env s) in
  let s' := step s (Start o) in
  room_calls s' =
    (room_calls s ++
     [NewRoom r true true;
      On r RoomEvent.Connected; On r RoomEvent.ParticipantConnected;
      On r RoomEvent.ParticipantDisconnected; On r RoomEvent.TrackSubscribed;
      On r RoomEvent.TrackUnsubscribed; On r RoomEvent.Disconnected;
      Connect r (livekit_url data) (token data)])%list
  ∧ registered_before_connect r (drop (length (room_calls s)) (room_calls s')) = six_events
  ∧ registered s' r = six_events.
Proof.
  intros idle1 idle2 Hinit init_ok Hcred cred_ok Hjson r s'.
  assert (room_calls s' =
    (room_calls s ++
     [NewRoom r true true;
      On r RoomEvent.Connected; On r RoomEvent.ParticipantConnected;
      On r RoomEvent.ParticipantDisconnected; On r RoomEvent.TrackSubscribed;
      On r RoomEvent.TrackUnsubscribed; On r RoomEvent.Disconnected;
      Connect r (livekit_url data) (token data)])%list
    ∧ registered s' r = six_events) as [calls table].
  { subst s' r. open_state s. destruct o as [[ia ta] [rejection|]];
      cbn [backend init_answer token_answer] in *; subst.
    - js_run. rewrite init_ok. js_run. rewrite cred_ok. js_run. rewrite Hjson. js_run.
      rewrite !alter_insert_eq, !lookup_insert_eq.
      split; [by rewrite <- ?app_assoc | reflexivity].
    - js_run. rewrite init_ok. js_run. rewrite cred_ok. js_run. rewrite Hjson. js_run.
      rewrite !alter_insert_eq, !lookup_insert_eq. js_run.
      destruct c_room; js_run; rewrite ?alter_insert_eq, ?lookup_insert_eq;
        (split; [by rewrite <- ?app_assoc | reflexivity]). }
  split; [exact calls |]. split; [| exact table].
  rewrite calls, drop_app_length. cbn. by rewrite Nat.eqb_refl.
Qed.

Lemma six_listeners_registered_before_connect_witness :
  let s' := step (initial "10:00:00" true) (Start all_good) in
  room_calls s' =
    [NewRoom 0 true true;
     On 0 RoomEvent.Connected; On 0 RoomEvent.ParticipantConnected;
     On 0 RoomEvent.ParticipantDisconnected; On 0 RoomEvent.TrackSubscribed;
     On 0 RoomEvent.TrackUnsubscribed; On 0 RoomEvent.Disconnected;
     Connect 0 "wss://x" "abc"]
  ∧ registered s' 0 = six_events.
Proof.
  destruct (six_listeners_registered_before_connect
              all_good (initial "10:00:00" true) (http 200 "OK") http_credential
              credential eq_refl eq_refl eq_refl eq_refl eq_refl eq_refl eq_refl)
    as (calls & _ & table).
  exact (conj calls table).
Defined.

(** ** Microphone failure *)




(** ** Release of the microphone *)

(** C4. The code at the failing inputs.  (1) The microphone is captured
    and published, the room service does not stop local tracks itself,
    and the room is disconnected from the remote side: the listener
    drops the handle ([setLocalAudioTrack(null)]) without stopping the
    track, so the device stays captured and nothing references it any
    more.  (2) The microphone is captured but its publication is
    refused: the track is neither stored nor stopped, and a remote
    disconnect leaves the device captured whether or not the room
    service stops published tracks.  (3) For contrast, the explicit
    [stopVoiceInterview] path does stop the recorded track. *)
Theorem remote_disconnect_leaves_microphone_captured (timestamp : string) :
  (let s := run (initial timestamp false) [Start all_good; MicSettles mic_granted] in
   let s' := step s (RoomEmits 0 SigDisconnected) in
   (session_state (ui s) = Connected
    ∧ localAudioTrack (ui s) = Some 1 ∧ capturing (env s) = [1])
   ∧ (isConnected (ui s') = false ∧ ¬ connection_open s' 0
      ∧ localAudioTrack (ui s') = None
      ∧ capturing (env s') = [1] ∧ track_stops s' = []))
  ∧ (∀ stops,
       let s := run (initial timestamp stops) [Start all_good; MicSettles publish_refused] in
       let s' := step s (RoomEmits 0 SigDisconnected) in
       (session_state (ui s) = Connected
        ∧ localAudioTrack (ui s) = None ∧ capturing (env s) = [1])
       ∧ (isConnected (ui s') = false ∧ ¬ connection_open s' 0
          ∧ localAudioTrack (ui s') = None
          ∧ capturing (env s') = [1] ∧ track_stops s' = []))
  ∧ (∀ stops teardown,
       let s' := run (initial timestamp stops)
                     [Start all_good; MicSettles mic_granted; Stop teardown] in
       capturing (env s') = [] ∧ track_stops s' = [1]).
Proof.
  split; [| split].
  - intros s s'. evaluate_scenario.
  - intros [|] s s'; evaluate_scenario.
  - intros [|] [rejection|response] s'; evaluate_scenario.
Qed.

(** C1. The code at the failing input: the connection opens, the
    microphone is captured, its publication is refused.  The stop button
    is enabled.  [stopVoiceInterview] then finds no recorded track, stops
    none, and returns with the device still captured, whether or not the
    room service stops published tracks and however the teardown request
    is answered.  The connection itself is closed. *)
Theorem stop_leaves_unpublished_microphone_captured
    (timestamp : string) (stops : bool) (teardown : FetchAnswer) :
  let s := run (initial timestamp stops) [Start all_good; MicSettles publish_refused] in
  let s' := step s (Stop teardown) in
  (stop_button_disabled (ui s) = false
   ∧ localAudioTrack (ui s) = None ∧ capturing (env s) = [1]
   ∧ connection_open s 0)
  ∧ (capturing (env s') = [1] ∧ track_stops s' = []
     ∧ ¬ connection_open s' 0
     ∧ requests s' = [initRequest; tokenRequest; stopRequest]).
Proof.
  destruct stops; destruct teardown as [rejection|response];
    intros s s'; evaluate_scenario.
Qed.

(** ** The backend requests *)

Lemma three_requests_carry_organization :
  Forall carries_organization [initRequest; tokenRequest; stopRequest].
Proof. repeat constructor. Qed.

Lemma perform_keeps_organization (a : Action) :
  respects (requests_keep carries_organization) (perform a).
Proof.
  assert (carries_organization initRequest ∧ carries_organization tokenRequest
          ∧ carries_organization stopRequest) as (init & cred & teardown)
    by (repeat split; repeat constructor).
  unfold perform. respects_walk;
    refine (respects_on_env _ _ _); intros w before; cbn; try exact before.
  all: by constructor.
Qed.

Lemma every_request_carries_organization
    (timestamp : string) (stops : bool) (script : list Action) :
  Forall carries_organization (requests (run (initial timestamp stops) script)).
Proof.
  unfold requests, seen. apply List.Forall_rev.
  apply (run_respects (requests_keep carries_organization)
           perform_keeps_organization script (initial timestamp stops)).
  constructor.
Qed.

(** C9. Every request sent in any run carries the [Organization]
    header, and a 500 answer to the initialize or to the credential
    request is surfaced as an error that quotes the body.  At the failing
    input, the teardown request of a connected session answered with any
    response at all, for instance HTTP 500 "server error", the response
    is not looked at: the status line reports success. *)
Theorem teardown_response_is_not_inspected (timestamp : string) (stops : bool) :
  (∀ script,
     Forall carries_organization (requests (run (initial timestamp stops) script)))
  ∧ (let refused :=
       {| backend := {| init_answer := inr (http 500 "server error");
                        token_answer := inr http_credential |};
          connect_answer := None |} in
     let s := step (initial timestamp stops) (Start refused) in
     statusType (ui s) = error
     ∧ status (ui s) =
         "[" +:+ timestamp +:+ "] ❌ Connection failed: Init failed: 500 - server error")
  ∧ (let s := step (initial timestamp stops)
                   (Start (credential_refused 500 "server error")) in
     statusType (ui s) = error
     ∧ status (ui s) =
         "[" +:+ timestamp +:+ "] ❌ Connection failed: Token failed: 500 - server error")
  ∧ (∀ response,
       let s := run (initial timestamp stops)
                    [Start all_good; MicSettles mic_granted; Stop (inr response)] in
       requests s = [initRequest; tokenRequest; stopRequest]
       ∧ statusType (ui s) = success
       ∧ status (ui s) = "[" +:+ timestamp +:+ "] ✅ Interview stopped successfully").
Proof.
  split; [apply every_request_carries_organization |].
  split; [intros refused s; destruct stops; evaluate_scenario |].
  split; [intros s; destruct stops; evaluate_scenario |].
  intros response s; destruct stops; evaluate_scenario.
Qed.

(** ** What [stopVoiceInterview] does release

    The track and the room that the component has recorded in its cells
    are released by [stopVoiceInterview], before the teardown request and
    whatever its answer. *)

#[global] Instance same_rooms_preorder : PreOrder same_rooms.
Proof.
  split; [intros w; reflexivity |].
  unfold same_rooms. intros w1 w2 w3 E1 E2. by rewrite E2.
Qed.













(** ** Every state the page can reach *)

Lemma wired_rooms_alter (recorded : option RoomId) rs r (f : RoomObj → RoomObj) :
  (∀ o, listeners (f o) = listeners o) →
  (∀ o, connected (f o) = true → connected o = true) →
  wired_rooms recorded rs → wired_rooms recorded (alter f r rs).
Proof.
  intros same_listeners not_opened wiring r' o'.
  rewrite lookup_alter. case_decide as same; [subst r' | apply wiring].
  destruct (rs !! r) as [o|] eqn:found; [| done]. cbn. intros [= <-].
  destruct (wiring r o found) as [listening only_recorded].
  rewrite same_listeners. split; [done |]. intros ?%not_opened. by apply only_recorded.
Qed.

Lemma wired_rooms_close recorded rs r (f : RoomObj → RoomObj) :
  (∀ o, listeners (f o) = listeners o) →
  (∀ o, connected (f o) = false) →
  wired_rooms (Some r) rs → wired_rooms recorded (alter f r rs).
Proof.
  intros same_listeners closes wiring r' o'.
  rewrite lookup_alter. case_decide as same; [subst r' |].
  - destruct (rs !! r) as [o|] eqn:found; [| done]. cbn. intros [= <-].
    destruct (wiring r o found) as [listening _].
    rewrite same_listeners, closes. by split.
  - intros found. destruct (wiring r' o' found) as [listening only_recorded].
    split; [done |]. intros [= ->]%only_recorded. done.
Qed.

Lemma wired_rooms_new recorded rs r o :
  listeners o = wired → (connected o = true → recorded = Some r) →
  wired_rooms None rs → wired_rooms recorded (<[r := o]> rs).
Proof.
  intros listening only_recorded wiring r' o'.
  rewrite lookup_insert. case_decide as same; [subst r'; by intros [= <-] |].
  intros found. destruct (wiring r' o' found) as [listening' none_open].
  split; [done |]. by intros ?%none_open.
Qed.

Ltac open_consistent H :=
  destruct H as (not_connecting & no_participants & wiring & recorded & sinks & logged);
  unfold recorded_room_open, sinks_in_document, status_is_last_log in *;
  cbn [ui env status statusType isConnecting isConnected room localAudioTrack
       participants now stops_local_tracks next_id rooms capturing awaiting_mic
       attached autoplay document_body trace] in *.

Ltac show_consistent :=
  unfold consistent, recorded_room_open, sinks_in_document, status_is_last_log;
  cbn [ui env status statusType isConnecting isConnected room localAudioTrack
       participants now stops_local_tracks next_id rooms capturing awaiting_mic
       attached autoplay document_body trace omap list_omap log_of].

Lemma start_keeps_consistent (o : StartAnswers) (s : Sys) :
  consistent s → consistent (step s (Start o)).
Proof.
  intros inv. open_state s. open_consistent inv. subst.
  destruct c_room as [r|].
  { destruct recorded as [-> opened]. unfold step, perform, startVoiceInterview, bind, get. cbn.
    show_consistent. by split_and!. }
  subst. destruct o as [[[e1|init] ta] ca]; js_run.
  { show_consistent. by split_and!. }
  destruct (Response.ok init); js_run; [| show_consistent; by split_and!].
  destruct ta as [e2|cred]; js_run; [show_consistent; by split_and! |].
  destruct (Response.ok cred); js_run; [| show_consistent; by split_and!].
  destruct (Response.json cred) as [e3|data]; js_run; [show_consistent; by split_and! |].
  rewrite !alter_insert_eq. js_run.
  destruct ca as [e4|]; js_run.
  - show_consistent. split_and!; try done. by apply wired_rooms_new.
  - rewrite !alter_insert_eq, !lookup_insert_eq. js_run.
    show_consistent. split_and!; try done; [by apply wired_rooms_new |].
    by rewrite lookup_insert_eq.
Qed.


Lemma stop_from_consistent (teardown : FetchAnswer) (s : Sys) :
  consistent s →
  let s' := step s (Stop teardown) in
  consistent s'
  ∧ room (ui s') = None ∧ isConnected (ui s') = false
  ∧ localAudioTrack (ui s') = None
  ∧ statusType (ui s') = match teardown with inl _ => error | inr _ => success end
  ∧ status (ui s') =
      "[" +:+ now (env s) +:+ "] " +:+
      match teardown with
      | inl rejection => "❌ Stop error: " +:+ error_message rejection
      | inr _ => "✅ Interview stopped successfully"
      end.
Proof.
  intros inv s'. subst s'. open_state s. open_consistent inv. subst.
  destruct c_room as [r|].
  - destruct recorded as [-> opened].
    destruct (w_rooms !! r) as [[cn ls ps pubs]|] eqn:found; [| done].
    cbn in opened. injection opened as ->.
    destruct (wiring r _ found) as [listening _]. cbn in listening. subst ls.
    unfold wired in found.
    destruct c_track, w_stops; js_run; rewrite ?found; js_run;
      rewrite ?lookup_alter_eq, ?found; js_run;
      destruct teardown; js_run; show_consistent; split_and!; try done;
      (apply wired_rooms_close; [by intros [] | by intros [] | done]).
  - subst. destruct c_track; js_run; destruct teardown; js_run; show_consistent;
      by split_and!.
Qed.

Lemma sinks_attach (attached0 : list (nat * ElemId)) (shown playing : list ElemId)
    (track : nat) (el : ElemId) :
  Forall (λ p, p.2 ∈ shown ∧ p.2 ∈ playing) attached0 →
  Forall (λ p, p.2 ∈ (shown ++ [el])%list ∧ p.2 ∈ (playing ++ [el])%list)
         (attached0 ++ [(track, el)])%list.
Proof.
  intros sinks. apply Forall_app. split.
  - eapply Forall_impl; [exact sinks |]. intros p [? ?]. set_solver.
  - constructor; [cbn; set_solver | constructor].
Qed.

Lemma sinks_detach (attached0 : list (nat * ElemId)) (shown playing : list ElemId)
    (track : nat) :
  Forall (λ p, p.2 ∈ shown ∧ p.2 ∈ playing) attached0 →
  Forall (λ p, p.2 ∈ shown ∧ p.2 ∈ playing) (filter (λ p, p.1 ≠ track) attached0).
Proof.
  rewrite !Forall_forall. intros sinks p [_ ?]%list_elem_of_filter. by apply sinks.
Qed.

Lemma room_event_keeps_consistent (r : RoomId) (sig : RoomSignal) (s : Sys) :
  consistent s → consistent (step s (RoomEmits r sig)).
Proof.
  intros inv. open_state s. open_consistent inv. subst.
  destruct (w_rooms !! r) as [[cn ls ps pubs]|] eqn:found.
  2:{ destruct sig; js_run; rewrite ?found; js_run; show_consistent; by split_and!. }
  destruct (wiring r _ found) as [listening only_recorded].
  cbn in listening, only_recorded. subst ls. unfold wired in found.
  destruct cn.
  2:{ destruct sig; js_run; rewrite ?found; js_run; show_consistent; by split_and!. }
  specialize (only_recorded eq_refl). subst c_room. destruct recorded as [-> opened].
  destruct sig as [ | p | p | track p | track | ]; js_run; rewrite ?found; js_run.
  - show_consistent. by split_and!.
  - rewrite lookup_alter_eq, found. js_run. show_consistent. split_and!; try done.
    + apply wired_rooms_alter; [by intros [] | by intros [] | done].
    + by rewrite lookup_alter_eq, found.
  - rewrite lookup_alter_eq, found. js_run. show_consistent. split_and!; try done.
    + apply wired_rooms_alter; [by intros [] | by intros [] | done].
    + by rewrite lookup_alter_eq, found.
  - destruct track as [track_sid [|]]; js_run; show_consistent; split_and!; try done.
    by apply sinks_attach.
  - show_consistent. split_and!; try done. by apply sinks_detach.
  - destruct w_stops; js_run; rewrite lookup_alter_eq, found; js_run;
      show_consistent; split_and!; try done;
      (apply wired_rooms_close; [by intros [] | by intros [] | done]).
Qed.

Lemma microphone_keeps_consistent (o : MicAnswers) (s : Sys) :
  consistent s → consistent (step s (MicSettles o)).
Proof.
  intros inv. open_state s. open_consistent inv. subst.
  destruct w_awaiting as [|r pending]; js_run; [show_consistent; by split_and! |].
  destruct o as [[e1|] [e2|]]; js_run; show_consistent; split_and!; try done.
  - apply wired_rooms_alter; [by intros [] | by intros [] | done].
  - destruct c_room as [r'|]; [| done]. destruct recorded as [-> opened].
    split; [done |]. rewrite lookup_alter.
    case_decide as same; [subst r' | done].
    by destruct (w_rooms !! r) as [[]|].
Qed.

Lemma perform_keeps_consistent (a : Action) (s : Sys) :
  consistent s → consistent (step s a).
Proof.
  destruct a; [apply start_keeps_consistent | | apply room_event_keeps_consistent
              | apply microphone_keeps_consistent].
  intros inv. apply (stop_from_consistent teardown s inv).
Qed.

Lemma initial_consistent (timestamp : string) (stops : bool) :
  consistent (initial timestamp stops).
Proof.
  unfold consistent, initial, recorded_room_open, sinks_in_document, wired_rooms. cbn.
  by split_and!.
Qed.

Lemma run_app (s : Sys) (script more : list Action) :
  run s (script ++ more) = run (run s script) more.
Proof. apply foldl_app. Qed.

Lemma run_keeps_consistent (script : list Action) (s : Sys) :
  consistent s → consistent (run s script).
Proof.
  revert s. induction script as [|a script IH]; intros s inv; [done |].
  cbn. by apply IH, perform_keeps_consistent.
Qed.

Lemma reachable_consistent timestamp stops script :
  consistent (run (initial timestamp stops) script).
Proof. apply run_keeps_consistent, initial_consistent. Qed.

(** *** What follows for every run from the initial page *)

(** X1. In every run from the initial page the [participants] cell stays
    empty, whatever participants join: the listeners call the
    [handleParticipantUpdate] of the render in which the start button was
    clicked, whose [room] is null, so each update sets the empty list.
    The panel therefore never shows a participant card, only one of its
    two notices. *)
Theorem participants_never_listed (timestamp : string) (stops : bool) (script : list Action) :
  let s := run (initial timestamp stops) script in
  participants (ui s) = []
  ∧ participants_panel (ui s) =
      Notice (if isConnected (ui s) then "Only you are connected"
              else "No participants connected").
Proof.
  intros s. destruct (reachable_consistent timestamp stops script) as (_ & none & _).
  fold s in none. clearbody s. unfold participants_panel. by rewrite none.
Qed.

Lemma open_connection_is_recorded (s : Sys) (r : RoomId) :
  consistent s → connection_open s r →
  room (ui s) = Some r ∧ isConnected (ui s) = true.
Proof.
  intros (_ & _ & wiring & recorded & _). unfold connection_open.
  destruct (rooms (env s) !! r) as [o|] eqn:found; [| done]. cbn. intros [= opened].
  destruct (wiring r o found) as [_ is_recorded]. specialize (is_recorded opened).
  split; [done |]. unfold recorded_room_open in recorded.
  rewrite is_recorded in recorded. by destruct recorded.
Qed.

(** X2. In every run from the initial page at most one room has an open
    connection, and it is the room recorded in the [room] cell, with
    [isConnected] set. *)
Theorem one_connection_at_most (timestamp : string) (stops : bool) (script : list Action) :
  let s := run (initial timestamp stops) script in
  (∀ r, connection_open s r → room (ui s) = Some r ∧ isConnected (ui s) = true)
  ∧ (∀ r r', connection_open s r → connection_open s r' → r = r').
Proof.
  intros s. pose proof (reachable_consistent timestamp stops script) as inv.
  fold s in inv. clearbody s.
  split; [intros r; by apply open_connection_is_recorded |].
  intros r r' [recorded_r _]%open_connection_is_recorded
           [recorded_r' _]%open_connection_is_recorded; [congruence | done | done].
Qed.

(** X3. In every run from the initial page the stop button is enabled
    exactly when some room has an open connection. *)
Theorem stop_button_tracks_connection
    (timestamp : string) (stops : bool) (script : list Action) :
  let s := run (initial timestamp stops) script in
  stop_button_disabled (ui s) = false ↔ ∃ r, connection_open s r.
Proof.
  intros s. pose proof (reachable_consistent timestamp stops script) as inv.
  fold s in inv. clearbody s.
  pose proof (λ r, open_connection_is_recorded s r inv) as only_recorded.
  destruct inv as (not_connecting & _ & _ & recorded & _).
  unfold stop_button_disabled, recorded_room_open in *.
  destruct (room (ui s)) as [r|].
  - destruct recorded as [-> opened]. cbn. split; [intros _; by exists r | done].
  - rewrite recorded. cbn. split; [done |].
    intros [r opened]. by destruct (only_recorded r opened).
Qed.



(** X6. In every run from the initial page, every element that a remote
    track is attached to is a child of [document.body] and has
    [autoplay] set. *)
Theorem sinks_are_in_document (timestamp : string) (stops : bool) (script : list Action) :
  let s := run (initial timestamp stops) script in
  ∀ track el, (track, el) ∈ attached (env s) →
    el ∈ document_body (env s) ∧ el ∈ autoplay (env s).
Proof.
  intros s. pose proof (reachable_consistent timestamp stops script) as inv.
  fold s in inv. clearbody s. destruct inv as (_ & _ & _ & _ & sinks & _).
  intros track el playing. unfold sinks_in_document in sinks.
  rewrite Forall_forall in sinks. apply (sinks _ playing).
Qed.

(** X7. In every run from the initial page the status line shown is the
    last line written with [console.log]; while nothing was logged it is
    the initial text with severity info. *)
Theorem status_shows_last_log (timestamp : string) (stops : bool) (script : list Action) :
  let s := run (initial timestamp stops) script in
  match last (seen log_of s) with
  | Some line => status (ui s) = line
  | None => status (ui s) = "Ready to start voice interview" ∧ statusType (ui s) = info
  end.
Proof.
  intros s. pose proof (reachable_consistent timestamp stops script) as inv.
  fold s in inv. clearbody s. destruct inv as (_ & _ & _ & _ & _ & logged).
  unfold status_is_last_log, seen in *.
  destruct (omap log_of (trace (env s))) as [|line lines]; [done |].
  cbn. by rewrite last_snoc.
Qed.

Lemma one_connection_at_most_witness :
  let s := run (initial "10:00:00" true) [Start all_good] in
  room (ui s) = Some 0 ∧ isConnected (ui s) = true.
Proof.
  destruct (one_connection_at_most "10:00:00" true [Start all_good]) as [recorded _].
  apply (recorded 0). vm_compute. reflexivity.
Defined.

Lemma stop_button_tracks_connection_witness :
  ∃ r, connection_open (run (initial "10:00:00" true) [Start all_good]) r.
Proof.
  apply (stop_button_tracks_connection "10:00:00" true [Start all_good]).
  vm_compute. reflexivity.
Defined.


Lemma sinks_are_in_document_witness :
  let s := run (initial "10:00:00" true)
               [Start all_good; RoomEmits 0 (SigTrackSubscribed agent_audio agent)] in
  1 ∈ document_body (env s) ∧ 1 ∈ autoplay (env s).
Proof.
  apply (sinks_are_in_document "10:00:00" true
           [Start all_good; RoomEmits 0 (SigTrackSubscribed agent_audio agent)] 7 1).
  vm_compute. apply list_elem_of_here.
Defined.

(** *** Remote tracks *)

Lemma silent_listeners {X} (f : X → Js unit) (xs : list X) (s : Sys) :
  (∀ x s0, f x s0 = (Normal (), s0)) → sequence_ (map f xs) s = (Normal (), s).
Proof.
  intros silent. induction xs as [|x xs IH]; [done |].
  cbn. unfold bind. by rewrite silent.
Qed.

(** X8. A subscribed track that is not audio changes nothing at all: no
    status line, no element, no attachment, from any state. *)
Theorem video_tracks_are_ignored (s : Sys) (r : RoomId) (n : nat) (p : Participant) :
  step s (RoomEmits r (SigTrackSubscribed {| sid := n; kind := Track.Video |} p)) = s.
Proof.
  unfold step, perform, lookup_room, bind, get, ret. cbn.
  destruct (from_option connected false (rooms (env s) !! r)); cbn; [| by destruct s].
  unfold emit, service_transition, lookup_room, bind, get, ret. cbn.
  rewrite silent_listeners; by destruct s.
Qed.

Lemma filter_keeps_others (attached0 : list (nat * ElemId)) (n : nat) :
  n ∉ attached0.*1 → filter (λ p, p.1 ≠ n) attached0 = attached0.
Proof.
  induction attached0 as [|[m el] rest IH]; [done |].
  rewrite fmap_cons. intros [differs absent]%not_elem_of_cons.
  rewrite filter_cons. cbn [fst] in *. rewrite decide_True by congruence.
  by rewrite IH.
Qed.

Lemma audio_round_trip_from_consistent (s : Sys) (r : RoomId) (n : nat) (p : Participant) :
  consistent s → connection_open s r → n ∉ (attached (env s)).*1 →
  let track := {| sid := n; kind := Track.Audio |} in
  let s' := run s [RoomEmits r (SigTrackSubscribed track p);
                   RoomEmits r (SigTrackUnsubscribed track)] in
  attached (env s') = attached (env s)
  ∧ document_body (env s') = (document_body (env s) ++ [next_id (env s)])%list
  ∧ autoplay (env s') = (autoplay (env s) ++ [next_id (env s)])%list.
Proof.
  intros inv opened absent track s'. subst s' track.
  unfold run, foldl. unfold connection_open in opened.
  open_state s. open_consistent inv. subst.
  destruct (w_rooms !! r) as [[cn ls ps pubs]|] eqn:found; [| done].
  cbn in opened. injection opened as ->.
  destruct (wiring r _ found) as [listening _]. cbn in listening. subst ls.
  unfold wired in found.
  repeat first [progress js_run | progress cbn [kind sid] | rewrite found].
  split; [| done]. rewrite filter_app, filter_keeps_others by done.
  rewrite filter_cons. cbn [fst]. rewrite decide_False by (by intros ?).
  by rewrite filter_nil, app_nil_r.
Qed.

(** X9. In every run from the initial page, on a room whose connection
    is open, subscribing an audio track that is attached nowhere and then
    unsubscribing it leaves the attachments as they were; the document
    and the autoplay elements have gained exactly the one new element. *)
Theorem audio_subscription_round_trip
    (timestamp : string) (stops : bool) (script : list Action)
    (r : RoomId) (n : nat) (p : Participant) :
  let s := run (initial timestamp stops) script in
  connection_open s r → n ∉ (attached (env s)).*1 →
  let track := {| sid := n; kind := Track.Audio |} in
  let s' := run s [RoomEmits r (SigTrackSubscribed track p);
                   RoomEmits r (SigTrackUnsubscribed track)] in
  attached (env s') = attached (env s)
  ∧ document_body (env s') = (document_body (env s) ++ [next_id (env s)])%list
  ∧ autoplay (env s') = (autoplay (env s) ++ [next_id (env s)])%list.
Proof.
  intros s. pose proof (reachable_consistent timestamp stops script) as inv.
  fold s in inv. clearbody s. intros opened absent.
  by apply audio_round_trip_from_consistent.
Qed.

Lemma audio_subscription_round_trip_witness :
  let s := run (initial "10:00:00" true) [Start all_good] in
  let s' := run s [RoomEmits 0 (SigTrackSubscribed agent_audio agent);
                   RoomEmits 0 (SigTrackUnsubscribed agent_audio)] in
  connection_open s 0
  ∧ attached (env s') = []
  ∧ document_body (env s') = [1].
Proof.
  assert (connection_open (run (initial "10:00:00" true) [Start all_good]) 0)
    as opened by (vm_compute; reflexivity).
  destruct (audio_subscription_round_trip "10:00:00" true [Start all_good] 0 7 agent
              opened ltac:(vm_compute; apply not_elem_of_nil))
    as (detached & appended & _).
  exact (conj opened (conj detached appended)).
Defined.

(** *** No failure escapes *)





(** *** The two backend requests of a start *)

(** X11. [getTokenFromBackend] returns data only when both requests were
    answered with a 2xx status and the body of the credential response
    parsed to that data; it has then sent exactly the initialize request
    followed by the credential request. *)
Theorem token_comes_from_accepted_credentials
    (o : BackendAnswers) (s s' : Sys) (data : TokenResponse) :
  getTokenFromBackend o s = (Normal data, s') →
  ∃ init cred,
    init_answer o = inr init ∧ Response.ok init = true
    ∧ token_answer o = inr cred ∧ Response.ok cred = true
    ∧ Response.json cred = inr data
    ∧ requests s' = (requests s ++ [initRequest; tokenRequest])%list.
Proof.
  open_state s. destruct o as [[e1|init] ta]; js_run; [done |].
  destruct (Response.ok init) eqn:init_ok; js_run; [| done].
  destruct ta as [e2|cred]; js_run; [done |].
  destruct (Response.ok cred) eqn:cred_ok; js_run; [| done].
  destruct (Response.json cred) as [e3|data'] eqn:parsed; js_run; [done |].
  intros [= <- <-]. exists init, cred. js_run. split_and!; try done.
  by rewrite <- app_assoc.
Qed.

Lemma token_comes_from_accepted_credentials_witness :
  ∃ init cred,
    init_answer (backend all_good) = inr init ∧ Response.ok init = true
    ∧ token_answer (backend all_good) = inr cred ∧ Response.ok cred = true
    ∧ Response.json cred = inr credential.
Proof.
  assert (getTokenFromBackend (backend all_good) (initial "10:00:00" true) =
          (Normal credential,
           (getTokenFromBackend (backend all_good) (initial "10:00:00" true)).2))
    as ran by (vm_compute; reflexivity).
  destruct (token_comes_from_accepted_credentials _ _ _ _ ran)
    as (init & cred & ? & ? & ? & ? & ? & _).
  by exists init, cred.
Defined.

(** *** How a start can end *)

(** X12. From a session that is neither connecting nor connected, when
    the initialize request is answered with a status outside 200-299, the
    credential request is never sent and no room is created; the status
    line is the error "Connection failed: Init failed: <status> - <body>"
    and both flags are clear. *)
Theorem initialize_refusal_stops_the_start
    (o : StartAnswers) (s : Sys) (init : Response.t) :
  isConnecting (ui s) = false → isConnected (ui s) = false →
  init_answer (backend o) = inr init → Response.ok init = false →
  let s' := step s (Start o) in
  requests s' = (requests s ++ [initRequest])%list
  ∧ room_calls s' = room_calls s
  ∧ isConnecting (ui s') = false ∧ isConnected (ui s') = false
  ∧ statusType (ui s') = error
  ∧ status (ui s') =
      "[" +:+ now (env s) +:+ "] " +:+ "❌ Connection failed: " +:+ "Init failed: "
      +:+ dec (Response.status init) +:+ " - " +:+ Response.text init.
Proof.
  intros idle1 idle2 Hinit init_bad s'. subst s'.
  open_state s. destruct o as [[ia ta] ca].
  cbn [backend init_answer] in *. subst. js_run. rewrite init_bad. js_run.
  by split_and!.
Qed.

Lemma initialize_refusal_stops_the_start_witness :
  let refused :=
    {| backend := {| init_answer := inr (http 503 "maintenance");
                     token_answer := inr http_credential |};
       connect_answer := None |} in
  let s' := step (initial "10:00:00" true) (Start refused) in
  requests s' = [initRequest]
  ∧ status (ui s') = "[10:00:00] ❌ Connection failed: Init failed: 503 - maintenance".
Proof.
  intros refused.
  destruct (initialize_refusal_stops_the_start refused (initial "10:00:00" true)
              (http 503 "maintenance") eq_refl eq_refl eq_refl eq_refl)
    as (sent & _ & _ & _ & _ & line).
  exact (conj sent line).
Defined.

(** X13. From a session that is neither connecting nor connected, a
    value thrown by the first await that fails (the initialize fetch, the
    credential fetch, the parsing of the credential body, or the
    connection attempt) is reported as the error line "Connection failed: "
    followed by its message, "Unknown error" when it is not an [Error];
    both flags are clear, the [room] cell is unchanged and no microphone
    capture is requested. *)
Theorem start_reports_what_was_thrown
    (o : StartAnswers) (s : Sys) (thrown : JsExn) :
  isConnecting (ui s) = false → isConnected (ui s) = false →
  init_answer (backend o) = inl thrown
  ∨ (∃ init, init_answer (backend o) = inr init ∧ Response.ok init = true
       ∧ (token_answer (backend o) = inl thrown
          ∨ ∃ cred, token_answer (backend o) = inr cred ∧ Response.ok cred = true
              ∧ (Response.json cred = inl thrown
                 ∨ ∃ data, Response.json cred = inr data
                     ∧ connect_answer o = Some thrown))) →
  let s' := step s (Start o) in
  status (ui s') =
    "[" +:+ now (env s) +:+ "] " +:+ "❌ Connection failed: " +:+ error_message thrown
  ∧ statusType (ui s') = error
  ∧ isConnecting (ui s') = false ∧ isConnected (ui s') = false
  ∧ room (ui s') = room (ui s)
  ∧ capture_requests s' = capture_requests s.
Proof.
  intros idle1 idle2 failure s'. subst s'.
  open_state s. destruct o as [[ia ta] ca].
  cbn [backend init_answer token_answer connect_answer] in *. subst.
  destruct failure as [-> | (init & -> & init_ok & failure)]; js_run; [done |].
  rewrite init_ok.
  destruct failure as [-> | (cred & -> & cred_ok & failure)]; js_run; [done |].
  rewrite cred_ok.
  destruct failure as [parse | (data & parse & ->)]; js_run; rewrite parse; js_run;
    done.
Qed.

Lemma start_reports_what_was_thrown_witness :
  let offline :=
    {| backend := {| init_answer := inl NonError; token_answer := inl NonError |};
       connect_answer := None |} in
  let s' := step (initial "10:00:00" true) (Start offline) in
  status (ui s') = "[10:00:00] ❌ Connection failed: Unknown error"
  ∧ statusType (ui s') = error.
Proof.
  intros offline.
  destruct (start_reports_what_was_thrown offline (initial "10:00:00" true) NonError
              eq_refl eq_refl (or_introl eq_refl))
    as (line & severity & _).
  exact (conj line severity).
Defined.

(** X14. From a session that is neither connecting nor connected,
    [startVoiceInterview] always leaves [isConnecting] clear, ends either
    connected or with an error-severity status, and ends connected
    exactly when both requests are answered 2xx, the credential body
    parses and the connection attempt is accepted. *)
Theorem start_connects_exactly_when_all_succeed (o : StartAnswers) (s : Sys) :
  isConnecting (ui s) = false → isConnected (ui s) = false →
  let s' := step s (Start o) in
  isConnecting (ui s') = false
  ∧ (isConnected (ui s') = true ∨ statusType (ui s') = error)
  ∧ (isConnected (ui s') = true ↔
       ∃ init cred data,
         init_answer (backend o) = inr init ∧ Response.ok init = true
         ∧ token_answer (backend o) = inr cred ∧ Response.ok cred = true
         ∧ Response.json cred = inr data ∧ connect_answer o = None).
Proof.
  intros idle1 idle2 s'. subst s'.
  open_state s. destruct o as [[ia ta] ca].
  cbn [backend init_answer token_answer connect_answer] in *. subst.
  destruct ia as [e1|init]; js_run.
  { split_and!; [done | by right |]. split; [done |]. by intros (? & ? & ? & ? & _). }
  destruct (Response.ok init) eqn:init_ok; js_run.
  2:{ split_and!; [done | by right |]. split; [done |].
      intros (? & ? & ? & [= <-] & ? & _). congruence. }
  destruct ta as [e2|cred]; js_run.
  { split_and!; [done | by right |]. split; [done |].
    by intros (? & ? & ? & _ & _ & ? & _). }
  destruct (Response.ok cred) eqn:cred_ok; js_run.
  2:{ split_and!; [done | by right |]. split; [done |].
      intros (? & ? & ? & _ & _ & [= <-] & ? & _). congruence. }
  destruct (Response.json cred) as [e3|data] eqn:parsed; js_run.
  { split_and!; [done | by right |]. split; [done |].
    intros (? & ? & ? & _ & _ & [= <-] & _ & ? & _). congruence. }
  rewrite !alter_insert_eq. js_run.
  destruct ca as [e4|]; js_run.
  { split_and!; [done | by right |]. split; [done |].
    by intros (? & ? & ? & _ & _ & _ & _ & _ & ?). }
  rewrite !alter_insert_eq, !lookup_insert_eq. js_run.
  destruct c_room; js_run;
    (split_and!; [done | by left |]; split; [| done]; intros _;
     exists init, cred, data; by split_and!).
Qed.

Lemma start_connects_exactly_when_all_succeed_witness :
  let s' := step (initial "10:00:00" true) (Start all_good) in
  isConnecting (ui s') = false ∧ isConnected (ui s') = true.
Proof.
  destruct (start_connects_exactly_when_all_succeed all_good (initial "10:00:00" true)
              eq_refl eq_refl) as (cleared & _ & _ & connects).
  split; [exact cleared |].
  apply connects. exists (http 200 "OK"), http_credential, credential.
  repeat split.
Defined.

(** *** The colour of the status box *)

(** X16. [getStatusColor] gives different classes to different
    severities. *)
Theorem status_colours_are_distinct (a b : Severity) :
  getStatusColor a = getStatusColor b → a = b.
Proof. destruct a, b; cbn; intros same; try reflexivity; discriminate same. Qed.

Lemma status_colours_are_distinct_witness : warning = warning.
Proof. exact (status_colours_are_distinct warning warning eq_refl). Defined.

(** *** The shape of the request log *)

Lemma start_sends_block (o : StartAnswers) (s : Sys) :
  ∃ block, block ∈ request_blocks
           ∧ requests (step s (Start o)) = (requests s ++ block)%list.
Proof.
  open_state s. destruct o as [[ia ta] ca].
  destruct c_isConnecting; [exists []; js_run; split; [set_solver | by rewrite app_nil_r] |].
  destruct c_isConnected; [exists []; js_run; split; [set_solver | by rewrite app_nil_r] |].
  destruct ia as [e1|init].
  { exists [initRequest]. js_run. split; [set_solver | done]. }
  destruct (Response.ok init) eqn:init_ok.
  2:{ exists [initRequest]. js_run. rewrite init_ok. js_run. split; [set_solver | done]. }
  exists [initRequest; tokenRequest]. split; [set_solver |].
  js_run. rewrite init_ok. js_run.
  destruct ta as [e2|cred]; js_run; [by rewrite <- app_assoc |].
  destruct (Response.ok cred); js_run; [| by rewrite <- app_assoc].
  destruct (Response.json cred) as [e3|data]; js_run; [by rewrite <- app_assoc |].
  rewrite !alter_insert_eq. js_run.
  destruct ca as [e4|]; js_run; [by rewrite <- app_assoc |].
  rewrite !alter_insert_eq, !lookup_insert_eq. js_run.
  destruct c_room; js_run; by rewrite <- app_assoc.
Qed.

Lemma stop_sends_teardown (teardown : FetchAnswer) :
  sends [stopRequest] (stopVoiceInterview teardown).
Proof.
  unfold stopVoiceInterview.
  apply sends_after_quiet; [respects_walk | returns_walk |]. intros render.
  apply sends_after_quiet; [respects_walk; quiet_leaves | returns_walk |]. intros _.
  apply sends_try_catch; [| intros e; respects_walk; quiet_leaves].
  apply sends_after_quiet; [respects_walk; quiet_leaves | returns_walk |]. intros _.
  apply sends_after_quiet;
    [destruct (room (ui render)); [unfold room_disconnect |];
     respects_walk; try quiet_leaves; apply emit_sends_no_request
    |destruct (room (ui render)); [unfold room_disconnect |];
     returns_walk; apply emit_returns |].
  intros _.
  apply sends_before_quiet; [apply sends_fetch |].
  intros _. respects_walk; quiet_leaves.
Qed.

Lemma other_actions_send_nothing (a : Action) (s : Sys) :
  (∀ o, a ≠ Start o) → (∀ teardown, a ≠ Stop teardown) →
  requests (step s a) = requests s.
Proof.
  intros not_start not_stop. apply no_request_seen. revert s.
  change (respects no_request (perform a)).
  destruct a as [o | teardown | r sig | o];
    [by destruct (not_start o) | by destruct (not_stop teardown) | |].
  - unfold perform. destruct sig; respects_walk; quiet_leaves.
  - unfold perform. respects_walk; quiet_leaves.
Qed.

Lemma action_sends_block (a : Action) (s : Sys) :
  ∃ block, block ∈ request_blocks ∧ requests (step s a) = (requests s ++ block)%list.
Proof.
  destruct a as [o | teardown | r sig | o].
  - apply start_sends_block.
  - exists [stopRequest]. split; [set_solver | apply stop_sends_teardown].
  - exists []. split; [set_solver |]. by rewrite app_nil_r, other_actions_send_nothing.
  - exists []. split; [set_solver |]. by rewrite app_nil_r, other_actions_send_nothing.
Qed.

Lemma run_sends_blocks (script : list Action) (s : Sys) :
  ∃ blocks, Forall (λ block, block ∈ request_blocks) blocks
            ∧ requests (run s script) = (requests s ++ concat blocks)%list.
Proof.
  revert s. induction script as [|a script IH]; intros s.
  { exists []. split; [constructor | by rewrite app_nil_r]. }
  destruct (action_sends_block a s) as (block & allowed & sent).
  destruct (IH (step s a)) as (blocks & all_allowed & rest).
  exists (block :: blocks). split; [by constructor |].
  change (run s (a :: script)) with (run (step s a) script).
  rewrite rest, sent. cbn [concat]. by rewrite <- app_assoc.
Qed.

(** X15. In every run from the initial page the requests sent, in order,
    are a concatenation of blocks, each being empty, the initialize
    request alone, the initialize request followed by the credential
    request, or the teardown request: a credential request only ever
    follows an initialize request directly. *)
Theorem request_log_is_made_of_blocks
    (timestamp : string) (stops : bool) (script : list Action) :
  ∃ blocks,
    Forall (λ block, block ∈ request_blocks) blocks
    ∧ requests (run (initial timestamp stops) script) = concat blocks.
Proof.
  destruct (run_sends_blocks script (initial timestamp stops))
    as (blocks & allowed & sent).
  exists blocks. split; [exact allowed | exact sent].
Qed.
